(** * crudehelpgen: the change-detection engine of [help_gen.py]

    A shallow embedding of [HelpFileGen] (src/help_gen.py): the signature
    string, the per-declaration checksum, the first pass that collects the
    checksums, the comparison with the persisted ones, and the second pass
    that renders the Markdown document.

    Modelling conventions.
    - A Python [str] is a [string]: the sequence of the bytes of its UTF-8
      encoding, so [content.encode('utf-8')] is the identity.  [str.lower]
      and [str.strip] act on the ASCII range (a non-ASCII letter is left as
      it is).
    - A Python [dict] is an association list in insertion order, because
      [json.dump] writes the entries in that order.
    - The syntax tree is what [ast.parse] returns; an expression node is
      kept as its location together with the texts [ast.dump] and
      [ast.unparse] give for it, and a definition carries what
      [ast.get_docstring] returns for it.  The generator reads nothing
      else of them when [ast.unparse] exists (Python 3.9 and later), so
      the fallbacks [_format_annotation] and [_format_default] are left
      out.
    - The files the generator touches are fields of a [world] record that
      is threaded through a run; an uncaught Python exception is the
      [Raised] result. *)

From Stdlib Require Import ZArith NArith Ascii String List Lia.
From stdpp Require Import base gmap sets list strings.
Import ListNotations.

(** ** Python string operations *)

Module Py.

Definition LF : string := String "010"%char "".
Definition dquote : ascii := "034"%char.
Definition squote : ascii := "039"%char.
Definition backslash : ascii := "092"%char.

(** [sep.join(parts)] *)
Definition join (sep : string) (parts : list string) : string :=
  String.concat sep parts.

Definition lower_char (c : ascii) : ascii :=
  let n := N_of_ascii c in
  if ((65 <=? n) && (n <=? 90))%N then ascii_of_N (n + 32) else c.

(** [s.lower()] *)
Fixpoint lower (s : string) : string :=
  match s with
  | EmptyString => EmptyString
  | String c r => String (lower_char c) (lower r)
  end.

(** [c.isspace()] on the ASCII range: TAB, LF, VT, FF, CR, FS, GS, RS,
    US and the space. *)
Definition isspace (c : ascii) : bool :=
  let n := N_of_ascii c in
  (((9 <=? n) && (n <=? 13)) || ((28 <=? n) && (n <=? 32)))%N.

Fixpoint lstrip (s : string) : string :=
  match s with
  | EmptyString => EmptyString
  | String c r => if isspace c then lstrip r else s
  end.

Fixpoint rstrip (s : string) : string :=
  match s with
  | EmptyString => EmptyString
  | String c r =>
      match rstrip r with
      | EmptyString => if isspace c then EmptyString else String c EmptyString
      | r' => String c r'
      end
  end.

(** [s.strip()] *)
Definition strip (s : string) : string := rstrip (lstrip s).

(** [c in s] for a one-character [c] *)
Fixpoint contains (c : ascii) (s : string) : bool :=
  match s with
  | EmptyString => false
  | String d r => if Ascii.eqb c d then true else contains c r
  end.

(** [s.split(c, 1)]: the part before the first [c], and the part after
    it when there is one (a list of one or two strings in Python). *)
Fixpoint split1 (c : ascii) (s : string) : string * option string :=
  match s with
  | EmptyString => (EmptyString, None)
  | String d r =>
      if Ascii.eqb c d then (EmptyString, Some r)
      else let '(h, t) := split1 c r in (String d h, t)
  end.

Definition hex_digit (n : N) : ascii :=
  if (n <? 10)%N then ascii_of_N (48 + n) else ascii_of_N (87 + n).

(** The quote [repr] chooses for a [str]: a double quote when the text
    has a single quote and no double quote, a single quote otherwise. *)
Definition repr_quote (s : string) : ascii :=
  if contains squote s && negb (contains dquote s) then dquote else squote.

Definition repr_char (q c : ascii) : string :=
  let n := N_of_ascii c in
  if Ascii.eqb c backslash then String backslash (String backslash "")
  else if Ascii.eqb c q then String backslash (String q "")
  else if (n =? 9)%N then String backslash "t"
  else if (n =? 10)%N then String backslash "n"
  else if (n =? 13)%N then String backslash "r"
  else if ((n <? 32) || (n =? 127))%N then
    String backslash
      (String "x" (String (hex_digit (n / 16)) (String (hex_digit (n mod 16)) "")))
  else String c "".

Fixpoint repr_body (q : ascii) (s : string) : string :=
  match s with
  | EmptyString => EmptyString
  | String c r => repr_char q c +:+ repr_body q r
  end.

(** [repr(s)] for a [str] *)
Definition repr_str (s : string) : string :=
  let q := repr_quote s in
  String q (repr_body q s +:+ String q "").

(** [repr(l)] for a list of [str], which is what an f-string writes for
    [{l}] *)
Definition repr_list (l : list string) : string :=
  "[" +:+ join ", " (map repr_str l) +:+ "]".

End Py.

(** ** [hashlib.sha256(data).hexdigest()] (FIPS 180-4) *)

Module SHA256.

Local Open Scope N_scope.

Definition w32 (x : N) : N := x mod 2 ^ 32.
Definition add32 (x y : N) : N := w32 (x + y).
Definition rotr (k x : N) : N :=
  N.lor (N.shiftr x k) (w32 (N.shiftl x (32 - k))).
Definition not32 (x : N) : N := N.lxor x (2 ^ 32 - 1).

Definition Ch (x y z : N) : N := N.lxor (N.land x y) (N.land (not32 x) z).
Definition Maj (x y z : N) : N :=
  N.lxor (N.lxor (N.land x y) (N.land x z)) (N.land y z).
Definition Sigma0 (x : N) : N := N.lxor (N.lxor (rotr 2 x) (rotr 13 x)) (rotr 22 x).
Definition Sigma1 (x : N) : N := N.lxor (N.lxor (rotr 6 x) (rotr 11 x)) (rotr 25 x).
Definition sigma0 (x : N) : N := N.lxor (N.lxor (rotr 7 x) (rotr 18 x)) (N.shiftr x 3).
Definition sigma1 (x : N) : N := N.lxor (N.lxor (rotr 17 x) (rotr 19 x)) (N.shiftr x 10).

(** The constants are the leading 32 bits of the fractional parts of the
    square roots (initial state) and cube roots (round constants) of the
    first primes. *)
Definition is_prime (n : nat) : bool :=
  forallb (fun d => negb (Nat.eqb (n mod d) 0)) (seq 2 (n - 2)).
Definition primes : list N :=
  map N.of_nat (filter is_prime (seq 2 310)).

Fixpoint cbrt_bits (b : nat) (n r : N) : N :=
  match b with
  | O => r
  | S b' =>
      let r' := r + 2 ^ N.of_nat b' in
      cbrt_bits b' n (if r' * r' * r' <=? n then r' else r)
  end.
Definition cbrt (n : N) : N := cbrt_bits 48 n 0.

Definition H0 : list N :=
  Eval vm_compute in map (fun p => w32 (N.sqrt (p * 2 ^ 64))) (firstn 8 primes).
Definition K : list N :=
  Eval vm_compute in map (fun p => w32 (cbrt (p * 2 ^ 96))) primes.

Fixpoint be_bytes (k : nat) (x : N) : list N :=
  match k with
  | O => []
  | S k' => (x / 2 ^ (8 * N.of_nat k')) mod 256 :: be_bytes k' x
  end.

Definition pad (msg : list N) : list N :=
  let len := N.of_nat (length msg) in
  let zeros := N.to_nat ((119 - len mod 64) mod 64) in
  msg ++ 128 :: repeat 0 zeros ++ be_bytes 8 (8 * len).

Fixpoint be_words (fuel : nat) (bs : list N) : list N :=
  match fuel, bs with
  | S f, b0 :: b1 :: b2 :: b3 :: r =>
      (((b0 * 256 + b1) * 256 + b2) * 256 + b3) :: be_words f r
  | _, _ => []
  end.

(** The message schedule, latest word first. *)
Fixpoint schedule (n : nat) (rev_w : list N) : list N :=
  match n with
  | O => rev_w
  | S n' =>
      let w := add32 (add32 (sigma1 (nth 1 rev_w 0)) (nth 6 rev_w 0))
                     (add32 (sigma0 (nth 14 rev_w 0)) (nth 15 rev_w 0)) in
      schedule n' (w :: rev_w)
  end.

Definition state : Type := N * N * N * N * N * N * N * N.

Definition round (s : state) (kw : N * N) : state :=
  let '(a, b, c, d, e, f, g, h) := s in
  let t1 := add32 (add32 (add32 h (Sigma1 e)) (add32 (Ch e f g) (fst kw))) (snd kw) in
  let t2 := add32 (Sigma0 a) (Maj a b c) in
  (add32 t1 t2, a, b, c, add32 d t1, e, f, g).

Definition compress (s : state) (block : list N) : state :=
  let w := rev (schedule 48 (rev block)) in
  let '(a, b, c, d, e, f, g, h) := s in
  let '(a', b', c', d', e', f', g', h') := fold_left round (combine K w) s in
  (add32 a a', add32 b b', add32 c c', add32 d d',
   add32 e e', add32 f f', add32 g g', add32 h h').

Fixpoint blocks (fuel : nat) (ws : list N) : list (list N) :=
  match fuel, ws with
  | S f, _ :: _ => firstn 16 ws :: blocks f (skipn 16 ws)
  | _, _ => []
  end.

Definition init : state :=
  match H0 with
  | [a; b; c; d; e; f; g; h] => (a, b, c, d, e, f, g, h)
  | _ => (0, 0, 0, 0, 0, 0, 0, 0)
  end.

Definition digest (msg : list N) : list N :=
  let p := pad msg in
  let ws := be_words (length p) p in
  let '(a, b, c, d, e, f, g, h) :=
    fold_left compress (blocks (length ws) ws) init in
  [a; b; c; d; e; f; g; h].

Fixpoint hex (k : nat) (x : N) : string :=
  match k with
  | O => EmptyString
  | S k' => String (Py.hex_digit ((x / 16 ^ N.of_nat k') mod 16)) (hex k' x)
  end.

Definition bytes_of (s : string) : list N :=
  map N_of_ascii (list_ascii_of_string s).

Definition hexdigest (s : string) : string :=
  String.concat "" (map (hex 8) (digest (bytes_of s))).

End SHA256.

(** ** The syntax tree *)

(** The location attributes of a node ([lineno], [col_offset],
    [end_lineno], [end_col_offset]).  They are all that changes in the
    tree when the source is laid out differently. *)
Record loc := Loc {
  lineno : nat; col_offset : nat; end_lineno : nat; end_col_offset : nat }.

(** An expression node.  [ast.dump] is called without
    [include_attributes], so its text is independent of [expr_loc]. *)
Record expr := Expr {
  expr_loc : loc;
  dump : string;
  unparse : string }.

(** [ast.arg] *)
Record arg := Arg {
  arg_loc : loc;
  arg_name : string;
  annotation : option expr }.

(** [ast.arguments] *)
Record arguments := Arguments {
  posonlyargs : list arg;
  args : list arg;
  vararg : option arg;
  kwonlyargs : list arg;
  kw_defaults : list (option expr);
  kwarg : option arg;
  defaults : list expr }.

(** The nodes [ast.walk] meets that are, or may contain, a definition.
    [doc] is the value of [ast.get_docstring] on the node.  [OtherNode]
    stands for any other node (an [if], a [try] and its handlers, an
    [async def], ...) with the text [ast.dump] gives for it and the nodes
    below it. *)
#[warnings="-register-all"]
Inductive node :=
| FunctionDef (at_ : loc) (name : string) (fargs : arguments)
    (body : list node) (decorator_list : list expr) (doc : option string)
| ClassDef (at_ : loc) (name : string) (bases : list expr)
    (body : list node) (decorator_list : list expr) (doc : option string)
| OtherNode (at_ : loc) (dumped : string) (children : list node).

(** [tree.body] of the parsed module *)
Definition module := list node.

Definition or_empty (s : option string) : string :=
  match s with Some t => t | None => "" end.

(** ** The signature string and the checksum *)

Definition star_name (prefix : string) (a : option arg) : string :=
  match a with Some x => prefix +:+ arg_name x | None => "" end.

Definition nonempty {A} (l : list A) : bool :=
  match l with [] => false | _ => true end.

Definition truthy (s : string) : bool :=
  match s with EmptyString => false | _ => true end.

Definition _get_function_signature (a : arguments) : string :=
  let names := map arg_name (args a) in
  let vararg_s := star_name "*" (vararg a) in
  let kwonly := map arg_name (kwonlyargs a) in
  let kwarg_s := star_name "**" (kwarg a) in
  let defaults_d := map dump (defaults a) in
  let kw_defaults_d := map dump (omap id (kw_defaults a)) in
  let sig_parts :=
    (if nonempty names then [Py.join ", " names] else []) ++
    (if truthy vararg_s then [vararg_s] else []) ++
    (if nonempty kwonly then ["*"; Py.join ", " kwonly] else []) ++
    (if truthy kwarg_s then [kwarg_s] else []) in
  "(" +:+ Py.join ", " sig_parts +:+ ")" +:+
  (if nonempty defaults_d then " defaults=" +:+ Py.repr_list defaults_d else "") +:+
  (if nonempty kw_defaults_d then " kw_defaults=" +:+ Py.repr_list kw_defaults_d else "").

(** The text of one method inside a class's checksum content. *)
Definition method_content (item : node) : string :=
  match item with
  | FunctionDef _ name a _ _ doc =>
      "|" +:+ name +:+ ":" +:+ _get_function_signature a +:+ ":" +:+ or_empty doc
  | _ => ""
  end.

(** The text that is hashed for a node. *)
Definition checksum_content (n : node) : string :=
  match n with
  | ClassDef _ name bases body decorators doc =>
      "ClassDef:" +:+ name +:+ ":" +:+ or_empty doc +:+ ":" +:+
      "bases:" +:+ Py.join "," (map dump bases) +:+ ":" +:+
      "decorators:" +:+ Py.join "," (map dump decorators) +:+ ":" +:+
      String.concat "" (map method_content body)
  | FunctionDef _ name a _ decorators doc =>
      "FunctionDef:" +:+ name +:+ ":" +:+ or_empty doc +:+ ":" +:+
      "decorators:" +:+ Py.join "," (map dump decorators) +:+ ":" +:+
      "signature:" +:+ _get_function_signature a
  | OtherNode _ dumped _ => dumped
  end.

Definition _calculate_node_checksum (n : node) : string :=
  SHA256.hexdigest (checksum_content n).

(** ** Dictionaries *)

Abbreviation pydict := (list (string * string)).

(** [d[k] = v]: an existing key keeps its place. *)
Fixpoint dict_set (d : pydict) (k v : string) : pydict :=
  match d with
  | [] => [(k, v)]
  | (k', v') :: r =>
      if String.eqb k k' then (k', v) :: r else (k', v') :: dict_set r k v
  end.

(** [d.get(k)] *)
Fixpoint dict_get (d : pydict) (k : string) : option string :=
  match d with
  | [] => None
  | (k', v') :: r => if String.eqb k k' then Some v' else dict_get r k
  end.

Definition dict_keys (d : pydict) : list string := map fst d.

(** [set(d.keys())] *)
Definition key_set (d : pydict) : gset string := list_to_set (dict_keys d).

(** ** The first pass: [ast.walk] and the checksums *)

Definition children_of (n : node) : list node :=
  match n with
  | FunctionDef _ _ _ body _ _ => body
  | ClassDef _ _ _ body _ _ => body
  | OtherNode _ _ children => children
  end.

Fixpoint node_size (n : node) : nat :=
  match n with
  | FunctionDef _ _ _ body _ _ => S (list_sum (map node_size body))
  | ClassDef _ _ _ body _ _ => S (list_sum (map node_size body))
  | OtherNode _ _ children => S (list_sum (map node_size children))
  end.

Definition forest_size (l : list node) : nat := list_sum (map node_size l).

(** The loop of [ast.walk]: take the first node of the queue, put its
    children at the end of the queue, yield the node. *)
Fixpoint walk_queue (fuel : nat) (todo : list node) : list node :=
  match fuel, todo with
  | S f, n :: rest => n :: walk_queue f (rest ++ children_of n)
  | _, _ => []
  end.

(** [ast.walk(tree)], without the [Module] node it starts with and the
    nodes that cannot contain a definition. *)
Definition walk (tree : module) : list node :=
  walk_queue (forest_size tree) tree.

(** The key of a definition in the checksum record. *)
Definition node_key (n : node) : option string :=
  match n with
  | FunctionDef _ name _ _ _ _ => Some name
  | ClassDef _ name _ _ _ _ => Some ("class_" +:+ name)
  | OtherNode _ _ _ => None
  end.

Definition record_node (d : pydict) (n : node) : pydict :=
  match node_key n with
  | Some k => dict_set d k (_calculate_node_checksum n)
  | None => d
  end.

Definition collect_checksums (tree : module) : pydict :=
  fold_left record_node (walk tree) [].

(** ** The comparison *)

(** [needs_update] after the comparison of lines 276-283. *)
Definition needs_update (current previous : pydict) : bool :=
  if bool_decide (key_set current ≠ key_set previous) then true
  else existsb (fun kv => bool_decide (dict_get previous kv.1 ≠ Some kv.2)) current.

(** ** The generator and the files it touches *)

(** The attributes of [self] the run reads.  [exclusion_list] is what
    [_load_exclusion_list] returned when the object was built. *)
Record HelpFileGen := {
  module_path : string;
  output_file : string;
  overwrite : bool;
  args_seperatly : bool;
  exclusion_list : list string }.

(** The content of [self.checksum_file] as the mapping [json.load] gives
    for it ([None]: no such file), the content of [self.output_file], and
    the lines printed so far.  [json.dump] writes a mapping entry by entry
    in insertion order, so two equal association lists give the same
    bytes. *)
Record world := World {
  checksum_store : option pydict;
  output_store : option string;
  stdout : list string }.

Definition _load_checksums (w : world) : pydict :=
  match checksum_store w with Some d => d | None => [] end.

Definition _save_checksums (w : world) (checksums : pydict) : world :=
  World (Some checksums) (output_store w) (stdout w).

Definition print (w : world) (line : string) : world :=
  World (checksum_store w) (output_store w) (stdout w ++ [line]).

(** [os.path.exists(self.output_file)] *)
Definition output_exists (w : world) : bool :=
  match output_store w with Some _ => true | None => false end.

Inductive exn :=
| UnboundLocalError (variable : string).

Inductive result (A : Type) :=
| Returned (a : A)
| Raised (e : exn).
Arguments Returned {A} a.
Arguments Raised {A} e.

(** ** Argument details and the usage example *)

Definition _get_type_annotation (annotation_node : option expr) : string :=
  match annotation_node with
  | None => "Any"
  | Some e => unparse e
  end.

(** [ast.unparse] does not raise on a node that [ast.parse] built, so the
    [except] branch is not taken. *)
Definition _unparse_or_format (n : option expr) : string :=
  match n with
  | None => "None"
  | Some e => unparse e
  end.

Definition _format_arg_line (name type_str : string) (default : option string) : string :=
  match default with
  | Some d => name +:+ ": " +:+ type_str +:+ " = " +:+ d
  | None => name +:+ ": " +:+ type_str
  end.

(** The default of the positional argument at index [i], lines 82-86. *)
Definition positional_default (a : arguments) (i : nat) : option string :=
  let off := (Z.of_nat (length (args a)) - Z.of_nat (length (defaults a)))%Z in
  if nonempty (defaults a) && (off <=? Z.of_nat i)%Z then
    match defaults a !! Z.to_nat (Z.of_nat i - off) with
    | Some d => Some (_unparse_or_format (Some d))
    | None => None
    end
  else None.

(** The default of the keyword-only argument at index [i], lines 96-100. *)
Definition keyword_default (a : arguments) (i : nat) : option string :=
  match kw_defaults a !! i with
  | Some (Some d) => Some (_unparse_or_format (Some d))
  | _ => None
  end.

Definition _get_argument_details (a : arguments) : list string :=
  imap (fun i x =>
          _format_arg_line (arg_name x) (_get_type_annotation (annotation x))
                           (positional_default a i)) (args a) ++
  imap (fun i x =>
          _format_arg_line (arg_name x) (_get_type_annotation (annotation x))
                           (keyword_default a i)) (kwonlyargs a).

(** One turn of the loop of lines 410-419: the cleaned argument, or
    [None] for [self]. *)
Definition clean_arg (a : string) : option string :=
  let '(p0, rest) := Py.split1 ":" a in
  let param_part := Py.strip p0 in
  if String.eqb param_part "self" then None
  else
    match rest with
    | Some r =>
        if Py.contains "=" r then
          match snd (Py.split1 "=" r) with
          | Some dflt => Some (param_part +:+ "=" +:+ Py.strip dflt)
          | None => Some param_part
          end
        else Some param_part
    | None => Some param_part
    end.

Definition cleaned_args (usage_args : list string) : list string :=
  omap clean_arg usage_args.

Definition class_obj (class_name : string) : string :=
  "self." +:+ Py.lower class_name +:+ "_obj".

Definition call_prefix (class_name name : string) : string :=
  if String.eqb name "__init__" then class_obj class_name +:+ "("
  else class_obj class_name +:+ "." +:+ name +:+ "(".

Definition generate_usage_code (class_name name : string) (usage_args : list string) : string :=
  let usage_string := class_obj class_name +:+ " = " +:+ class_name +:+ Py.LF +:+ Py.LF in
  let prefix := call_prefix class_name name in
  match cleaned_args usage_args with
  | [] => usage_string +:+ prefix +:+ ")"
  | [a] => usage_string +:+ prefix +:+ a +:+ ")"
  | l =>
      usage_string +:+ prefix +:+ Py.LF +:+
      Py.join ("," +:+ Py.LF) (map (fun a => "    " +:+ a) l) +:+
      Py.LF +:+ ")"
  end.

(** ** The second pass *)

Definition dq : string := String Py.dquote "".

Definition anchor_tag (anchor : string) : string :=
  "<a id=" +:+ dq +:+ anchor +:+ dq +:+ "></a>" +:+ Py.LF.

Definition link (name anchor : string) : string :=
  "[`" +:+ name +:+ "`](#" +:+ anchor +:+ ")".

Definition _extract_help_from_docstring (docstring : option string) : option string :=
  match docstring with
  | None => None
  | Some s => if truthy s then Some (Py.strip s) else None
  end.

(** The [Help] block of an entry; [h] is the heading marker. *)
Definition help_block (h : string) (doc : option string) : string :=
  match _extract_help_from_docstring doc with
  | Some t =>
      if truthy t then Py.LF +:+ h +:+ " Help:" +:+ Py.LF +:+ "> " +:+ t +:+ Py.LF
      else Py.LF +:+ h +:+ " Help:" +:+ Py.LF +:+ "> No help provided." +:+ Py.LF
  | None => Py.LF +:+ h +:+ " Help:" +:+ Py.LF +:+ "> No help provided." +:+ Py.LF
  end.

Definition arguments_block (self : HelpFileGen) (h : string) (a : arguments) : string :=
  if args_seperatly self then
    h +:+ " Arguments:" +:+ Py.LF +:+
    Py.join Py.LF (map (fun d => "- " +:+ d) (_get_argument_details a))
  else "".

Definition excluded (self : HelpFileGen) (name : string) : bool :=
  bool_decide (name ∈ exclusion_list self).

Definition method_anchor (class_name name : string) : string :=
  "method-" +:+ Py.lower class_name +:+ "-" +:+ Py.lower name.

Definition class_anchor (class_name : string) : string :=
  "class-" +:+ Py.lower class_name.

Definition func_anchor (name : string) : string :=
  "func-" +:+ Py.lower name.

(** The quick links of a class, lines 302-306. *)
Definition method_links (self : HelpFileGen) (class_name : string) (body : list node) : list string :=
  omap (fun child =>
          match child with
          | FunctionDef _ name _ _ _ _ =>
              if excluded self name then None
              else Some (link name (method_anchor class_name name))
          | _ => None
          end) body.

(** The entry of one method, lines 320-338. *)
Definition method_entry (self : HelpFileGen) (class_name name : string)
    (a : arguments) (doc : option string) : string :=
  anchor_tag (method_anchor class_name name) +:+
  "### Method: `" +:+ name +:+ "`" +:+ Py.LF +:+
  arguments_block self "####" a +:+
  help_block "####" doc +:+
  Py.LF +:+ "#### Usage:" +:+ Py.LF +:+ " ```python" +:+ Py.LF +:+
  generate_usage_code class_name name (_get_argument_details a) +:+
  Py.LF +:+ "```" +:+ Py.LF +:+
  Py.LF +:+ Py.LF +:+ "[Back to `" +:+ class_name +:+ "`](#" +:+
  class_anchor class_name +:+ ") or [Classes](#top)" +:+ Py.LF +:+ Py.LF.

Definition method_entries (self : HelpFileGen) (class_name : string) (body : list node) : list string :=
  omap (fun child =>
          match child with
          | FunctionDef _ name a _ _ doc =>
              if excluded self name then None
              else Some (method_entry self class_name name a doc)
          | _ => None
          end) body.

(** What a class appends to [help_content], lines 293-341. *)
Definition class_content (self : HelpFileGen) (class_name : string) (body : list node) : list string :=
  [anchor_tag (class_anchor class_name);
   "## Class: `" +:+ class_name +:+ "`" +:+ Py.LF] ++
  (let links := method_links self class_name body in
   if nonempty links then ["### Quick Links:" +:+ Py.LF; Py.join " | " links; Py.LF]
   else []) ++
  method_entries self class_name body.

(** The entry of a standalone function, lines 348-366.  [class_name] is
    the local variable of [_generate_help_content], bound by the last
    class the loop has met. *)
Definition function_entry (self : HelpFileGen) (class_name : option string)
    (name : string) (a : arguments) (doc : option string) : result string :=
  let head :=
    anchor_tag (func_anchor name) +:+
    "## Function: `" +:+ name +:+ "`" +:+ Py.LF +:+
    arguments_block self "###" a +:+
    help_block "###" doc in
  match class_name with
  | None => Raised (UnboundLocalError "class_name")
  | Some c =>
      Returned
        (head +:+
         Py.LF +:+ "### Usage:" +:+ Py.LF +:+ "```python" +:+ Py.LF +:+
         generate_usage_code c name (_get_argument_details a) +:+
         Py.LF +:+ "```" +:+ Py.LF +:+
         Py.LF +:+ "[Back to top](#top)" +:+ Py.LF +:+ Py.LF)
  end.

(** The loop of lines 291-367 over [tree.body], with the two locals it
    updates. *)
Fixpoint second_pass (self : HelpFileGen) (class_name : option string)
    (help_content : list string) (body : list node) : result (list string) :=
  match body with
  | [] => Returned help_content
  | ClassDef _ name _ cbody _ _ :: rest =>
      second_pass self (Some name)
        (help_content ++ class_content self name cbody) rest
  | FunctionDef _ name a _ _ doc :: rest =>
      if excluded self name then second_pass self class_name help_content rest
      else
        match function_entry self class_name name a doc with
        | Returned entry => second_pass self class_name (help_content ++ [entry]) rest
        | Raised e => Raised e
        end
  | OtherNode _ _ _ :: rest => second_pass self class_name help_content rest
  end.

(** The links of the table of contents, lines 373-379 and 388-392. *)
Fixpoint class_anchors (body : list node) : list string :=
  match body with
  | [] => []
  | ClassDef _ name _ _ _ _ :: rest =>
      link name (class_anchor name) :: class_anchors rest
  | _ :: rest => class_anchors rest
  end.

Fixpoint func_anchors (self : HelpFileGen) (body : list node) : list string :=
  match body with
  | [] => []
  | FunctionDef _ name _ _ _ _ :: rest =>
      if excluded self name then func_anchors self rest
      else link name (func_anchor name) :: func_anchors self rest
  | _ :: rest => func_anchors self rest
  end.

Definition table_of_contents (self : HelpFileGen) (tree : module) : string :=
  Py.join Py.LF
    ([anchor_tag "top"; "## Table of Contents" +:+ Py.LF] ++
     (let cs := class_anchors tree in
      if nonempty cs then ["### Classes:" +:+ Py.LF; Py.join " | " cs; Py.LF] else []) ++
     (let fs := func_anchors self tree in
      if nonempty fs then ["### Functions:" +:+ Py.LF; Py.join " | " fs; Py.LF] else [])).

(** Lines 369-399. *)
Definition with_toc (self : HelpFileGen) (tree : module) (help_content : list string) : list string :=
  if nonempty help_content then table_of_contents self tree :: help_content
  else help_content.

(** ** A run *)

Definition no_changes_line (self : HelpFileGen) : string :=
  "No changes detected in module " +:+ module_path self +:+ ", help file is up to date.".

(** The second pass and the assembly of the document, lines 290-399 and
    402. *)
Definition render (self : HelpFileGen) (tree : module) : result string :=
  match second_pass self None [] tree with
  | Raised e => Raised e
  | Returned help_content =>
      Returned (Py.join (Py.LF +:+ Py.LF) (with_toc self tree help_content))
  end.

(** [_generate_help_content], from the parsed [tree] on. *)
Definition _generate_help_content (self : HelpFileGen) (w : world) (tree : module)
    : result string * world :=
  let current_checksums := collect_checksums tree in
  let previous_checksums := _load_checksums w in
  if negb (needs_update current_checksums previous_checksums) && output_exists w then
    (Returned "", _save_checksums (print w (no_changes_line self)) current_checksums)
  else
    match render self tree with
    | Raised e => (Raised e, w)
    | Returned document => (Returned document, _save_checksums w current_checksums)
    end.

Definition _update_help_file_incrementally (w : world) (new_content : string) : world :=
  World (checksum_store w) (Some new_content) (stdout w).

Definition generate_help_file (self : HelpFileGen) (w : world) (tree : module)
    : result unit * world :=
  if overwrite self || negb (output_exists w) then
    match _generate_help_content self w tree with
    | (Raised e, w') => (Raised e, w')
    | (Returned help_content, w') =>
        if truthy help_content then
          (Returned tt,
           print (_update_help_file_incrementally w' help_content)
                 ("Help file generated/updated: " +:+ output_file self))
        else (Returned tt, w')
    end
  else
    (Returned tt,
     print w ("Help file already exists and overwrite is set to False: " +:+ output_file self)).

(** ** Notions used to state the properties *)

(** The record without the key [k]. *)
Definition dict_del (d : pydict) (k : string) : pydict :=
  filter (fun kv => kv.1 ≠ k) d.

Definition is_class (n : node) : bool :=
  match n with ClassDef _ _ _ _ _ _ => true | _ => false end.

(** A top-level function of the module that is not excluded. *)
Definition is_live_function (self : HelpFileGen) (n : node) : bool :=
  match n with
  | FunctionDef _ name _ _ _ _ => negb (excluded self name)
  | _ => false
  end.

(** ** Example modules *)

Definition no_arguments : arguments := Arguments [] [] None [] [] None [].

(** [def f(): pass] *)
Definition lone_function : module :=
  [FunctionDef (Loc 1 0 1 13) "f" no_arguments
     [OtherNode (Loc 1 9 1 13) "Pass()" []] [] None].

(** No checksum file, no help file, nothing printed. *)
Definition fresh : world := World None None [].

Definition generator (path : string) (excl : list string) : HelpFileGen :=
  {| module_path := path +:+ ".py";
     output_file := path +:+ "-help.md";
     overwrite := true;
     args_seperatly := false;
     exclusion_list := excl |}.


Definition self_arg (l : loc) : arg := Arg l "self" None.

(** [def __init__(self, name: str = "World"): self.name = name] *)
Definition greeter_init : node :=
  FunctionDef (Loc 2 4 3 24) "__init__"
    (Arguments []
       [self_arg (Loc 2 17 2 21);
        Arg (Loc 2 23 2 32) "name"
          (Some (Expr (Loc 2 29 2 32) "Name(id='str', ctx=Load())" "str"))]
       None [] [] None
       [Expr (Loc 2 35 2 42) "Constant(value='World')" "'World'"])
    [OtherNode (Loc 3 8 3 24)
       "Assign(targets=[Attribute(value=Name(id='self', ctx=Load()), attr='name', ctx=Store())], value=Name(id='name', ctx=Load()))"
       []]
    [] None.

Definition greet_arguments : arguments :=
  Arguments [] [self_arg (Loc 5 14 5 18)] None [] [] None [].

(** [def greet(self)] with the docstring [Say hello.] *)
Definition greeter_greet : node :=
  FunctionDef (Loc 5 4 6 24) "greet" greet_arguments
    [OtherNode (Loc 6 8 6 24) "Expr(value=Constant(value='Say hello.'))" []]
    [] (Some "Say hello.").

(** The module of the example scenario: [class Greeter] with the two
    methods. *)
Definition greeter : module :=
  [ClassDef (Loc 1 0 6 24) "Greeter" [] [greeter_init; greeter_greet] [] None].

Definition runner (l : loc) (doc : string) : node :=
  FunctionDef l "run" (Arguments [] [self_arg l] None [] [] None [])
    [OtherNode l "Pass()" []] [] (Some doc).

(** Two classes [A] and [B], each with a method [run]. *)
Definition two_runners : module :=
  [ClassDef (Loc 1 0 3 12) "A" [] [runner (Loc 2 4 3 12) "Run A."] [] None;
   ClassDef (Loc 5 0 7 12) "B" [] [runner (Loc 6 4 7 12) "Run B."] [] None].

(** [class A: pass] *)
Definition lone_class : module :=
  [ClassDef (Loc 1 0 1 13) "A" [] [OtherNode (Loc 1 9 1 13) "Pass()" []] [] None].

(** The names of the classes and of the functions of the top level. *)
Definition toplevel_classes (tree : module) : list string :=
  omap (fun n => match n with ClassDef _ name _ _ _ _ => Some name | _ => None end) tree.

Definition toplevel_functions (tree : module) : list string :=
  omap (fun n => match n with FunctionDef _ name _ _ _ _ => Some name | _ => None end) tree.


(** ** Notions for the signature *)

Definition nowhere : loc := Loc 0 0 0 0.

(** A node without its location attributes: two parameter lists that
    differ only in how the source is laid out (white space, line breaks,
    the quotes around a string) are equal once their nodes are moved to
    [nowhere]. *)
Definition erase_expr (e : expr) : expr := Expr nowhere (dump e) (unparse e).

Definition erase_arg (x : arg) : arg :=
  Arg nowhere (arg_name x) (option_map erase_expr (annotation x)).

Definition erase_arguments (a : arguments) : arguments :=
  Arguments (map erase_arg (posonlyargs a)) (map erase_arg (args a))
    (option_map erase_arg (vararg a)) (map erase_arg (kwonlyargs a))
    (map (option_map erase_expr) (kw_defaults a)) (option_map erase_arg (kwarg a))
    (map erase_expr (defaults a)).

(** A parameter list without its type annotations. *)
Definition unannotated_arg (x : arg) : arg := Arg (arg_loc x) (arg_name x) None.

Definition unannotated (a : arguments) : arguments :=
  Arguments (map unannotated_arg (posonlyargs a)) (map unannotated_arg (args a))
    (option_map unannotated_arg (vararg a)) (map unannotated_arg (kwonlyargs a))
    (kw_defaults a) (option_map unannotated_arg (kwarg a)) (defaults a).

(** What [_get_function_signature] reads of a parameter list: the names
    of the positional parameters, of [*args], of the keyword-only
    parameters and of [**kwargs], the dumps of the positional defaults,
    and the dumps of the keyword-only defaults that are present. *)
Record signature_view := SignatureView {
  sv_names : list string;
  sv_vararg : option string;
  sv_kwonly : list string;
  sv_kwarg : option string;
  sv_defaults : list string;
  sv_kw_defaults : list string }.

Definition view_of (a : arguments) : signature_view :=
  SignatureView (map arg_name (args a)) (option_map arg_name (vararg a))
    (map arg_name (kwonlyargs a)) (option_map arg_name (kwarg a))
    (map dump (defaults a)) (map dump (omap id (kw_defaults a))).

(** [str.isidentifier] on the bytes of the name: letters, digits, the
    underscore and the bytes of non-ASCII characters, not starting with a
    digit. *)
Definition is_digit (c : ascii) : bool :=
  let n := N_of_ascii c in ((48 <=? n) && (n <=? 57))%N.

Definition is_ident_char (c : ascii) : bool :=
  let n := N_of_ascii c in
  (is_digit c || ((65 <=? n) && (n <=? 90)) || (n =? 95)
   || ((97 <=? n) && (n <=? 122)) || (128 <=? n))%N.

Fixpoint all_chars (p : ascii → bool) (s : string) : bool :=
  match s with
  | EmptyString => true
  | String c r => p c && all_chars p r
  end.

Definition is_identifier (s : string) : bool :=
  match s with
  | EmptyString => false
  | String c _ => negb (is_digit c) && all_chars is_ident_char s
  end.

Definition option_all {A} (p : A → bool) (o : option A) : bool :=
  match o with Some x => p x | None => true end.

(** The names of the parameters are identifiers, as in every tree that
    [ast.parse] returns. *)
Definition well_named (a : arguments) : bool :=
  forallb is_identifier (map arg_name (args a))
  && option_all (fun x => is_identifier (arg_name x)) (vararg a)
  && forallb is_identifier (map arg_name (kwonlyargs a))
  && option_all (fun x => is_identifier (arg_name x)) (kwarg a).

(** Reading back one character of the body of a [repr]: the inverse of
    [Py.repr_char], used to show that [repr] loses nothing. *)
Definition hex_value (c : ascii) : N :=
  let n := N_of_ascii c in
  (if n <? 58 then n - 48 else n - 87)%N.

Definition read_repr_char (q : ascii) (s : string) : option (ascii * string) :=
  match s with
  | EmptyString => None
  | String c r =>
      if Ascii.eqb c Py.backslash then
        match r with
        | String d r' =>
            if Ascii.eqb d Py.backslash then Some (Py.backslash, r')
            else if Ascii.eqb d q then Some (q, r')
            else if Ascii.eqb d "t" then Some ("009"%char, r')
            else if Ascii.eqb d "n" then Some ("010"%char, r')
            else if Ascii.eqb d "r" then Some ("013"%char, r')
            else
              match r' with
              | String h (String l r'') =>
                  Some (ascii_of_N (16 * hex_value h + hex_value l), r'')
              | _ => None
              end
        | EmptyString => None
        end
      else if Ascii.eqb c q then None
      else Some (c, r)
  end.

(** [def f(x: int)] and [def f(x: str)] *)
Definition one_parameter (l : loc) (ann : expr) : arguments :=
  Arguments [] [Arg l "x" (Some ann)] None [] [] None [].

Definition f_of_int : node :=
  FunctionDef (Loc 1 0 1 20) "f"
    (one_parameter (Loc 1 6 1 12) (Expr (Loc 1 9 1 12) "Name(id='int', ctx=Load())" "int"))
    [OtherNode (Loc 1 15 1 19) "Pass()" []] [] None.

Definition f_of_str : node :=
  FunctionDef (Loc 1 0 1 20) "f"
    (one_parameter (Loc 1 6 1 12) (Expr (Loc 1 9 1 12) "Name(id='str', ctx=Load())" "str"))
    [OtherNode (Loc 1 15 1 19) "Pass()" []] [] None.


(** ** The shape of the signature string *)

(** The signature is a list of tokens between parentheses: the positional
    names, [*args], a lone [*] before the keyword-only names, [**kwargs];
    then the two tagged lists of dumps. *)
Definition star_token (prefix : string) (o : option arg) : list string :=
  match o with Some x => [prefix +:+ arg_name x] | None => [] end.

Definition kwonly_tokens (a : arguments) : list string :=
  if nonempty (kwonlyargs a) then "*" :: map arg_name (kwonlyargs a) else [].

Definition tokens (a : arguments) : list string :=
  map arg_name (args a) ++ star_token "*" (vararg a) ++
  kwonly_tokens a ++ star_token "**" (kwarg a).

Definition tagged (tag : string) (l : list string) : string :=
  if nonempty l then tag +:+ Py.repr_list l else "".

Definition defaults_text (a : arguments) : string :=
  tagged " defaults=" (map dump (defaults a)).

Definition kw_defaults_text (a : arguments) : string :=
  tagged " kw_defaults=" (map dump (omap id (kw_defaults a))).

(** A token that is a name, not a starred form. *)
Definition plain (t : string) : bool :=
  match t with
  | EmptyString => false
  | String c _ => negb (Ascii.eqb c "*")
  end.

Definition starts_starred (l : list string) : bool :=
  match l with [] => true | t :: _ => negb (plain t) end.

(** A token that is not empty and has no comma and no closing
    parenthesis. *)
Definition clean_token (t : string) : bool :=
  truthy t && negb (Py.contains "," t) && negb (Py.contains ")" t).

(** [r] is empty or begins with [c]. *)
Definition begins (c : ascii) (r : string) : bool :=
  match r with EmptyString => true | String d _ => Ascii.eqb c d end.

(** What follows the first item in the [repr] of a list. *)
Fixpoint repr_rest (l : list string) (r : string) : string :=
  match l with
  | [] => "]" +:+ r
  | x :: xs => ", " +:+ Py.repr_str x +:+ repr_rest xs r
  end.


(** ** Notions for the first pass *)

(** The node and everything below it, the node first. *)
Fixpoint nodes_of (n : node) : list node :=
  n :: match n with
       | FunctionDef _ _ _ body _ _ => flat_map nodes_of body
       | ClassDef _ _ _ body _ _ => flat_map nodes_of body
       | OtherNode _ _ children => flat_map nodes_of children
       end.

(** Every node of the module, at any depth. *)
Definition all_nodes (tree : module) : list node := flat_map nodes_of tree.



(** ** Notions for the second pass *)

(** The value of the local [class_name] after the loop of the second pass
    has run over [pre], when it was [class_name] before. *)
Definition class_name_after (class_name : option string) (pre : list node) : option string :=
  fold_left (fun c n => match n with
                        | ClassDef _ name _ _ _ _ => Some name
                        | _ => c
                        end) pre class_name.

(** [s] begins with [p]. *)
Definition begins_with (p s : string) : Prop := ∃ rest, s = p +:+ rest.


(** [class A: pass] followed by [def f(): pass] *)
Definition class_then_function : module := lone_class ++ lone_function.

(** The entries of the document when the second pass returns. *)
Definition rendered_entries (self : HelpFileGen) (tree : module) : list string :=
  match second_pass self None [] tree with
  | Returned help_content => help_content
  | Raised _ => []
  end.


(** ** Notions for the checksum of a class *)

(** What the checksum of a class reads of one member: for a function its
    name, its signature string and its docstring; nothing for any other
    member. *)
Definition method_summary (item : node) : option (string * string * string) :=
  match item with
  | FunctionDef _ name a _ _ doc => Some (name, _get_function_signature a, or_empty doc)
  | _ => None
  end.


(** [class A] with the method [run], and the same class after an edit of
    the body of [run], a new class attribute and a new nested class. *)
Definition class_a_before : node :=
  ClassDef (Loc 1 0 3 12) "A" [] [runner (Loc 2 4 3 12) "Run A."] [] None.

Definition class_a_after : node :=
  ClassDef (Loc 1 0 9 16) "A" []
    [OtherNode (Loc 2 4 2 13) "Assign(targets=[Name(id='limit', ctx=Store())], value=Constant(value=3))" [];
     FunctionDef (Loc 4 4 6 19) "run"
       (Arguments [] [self_arg (Loc 4 12 4 16)] None [] [] None [])
       [OtherNode (Loc 6 8 6 19) "Return(value=Constant(value=1))" []] [] (Some "Run A.");
     ClassDef (Loc 8 4 9 16) "Inner" [] [OtherNode (Loc 9 8 9 12) "Pass()" []] [] None]
    [] None.


(** ** Notions for the argument details *)

(** The line of the parameter [x] with the default expression [default],
    if it has one. *)
Definition detail_line (x : arg) (default : option expr) : string :=
  _format_arg_line (arg_name x) (_get_type_annotation (annotation x))
    (option_map unparse default).


(** ** The names of the files, from [__init__] *)

(** [s.replace(old, new)] for a non-empty [old]: the occurrences of [old]
    are replaced from left to right, without overlap.  [skip] counts the
    characters of an occurrence still to pass over. *)
Fixpoint replace_go (old new : string) (skip : nat) (s : string) : string :=
  match s with
  | EmptyString => EmptyString
  | String c r =>
      match skip with
      | S k => replace_go old new k r
      | O =>
          if String.prefix old s
          then new +:+ replace_go old new (String.length old - 1) r
          else String c (replace_go old new 0 r)
      end
  end.

Definition str_replace (old new s : string) : string := replace_go old new 0 s.

(** [os.path.basename] (POSIX): what follows the last slash. *)
Fixpoint basename (p : string) : string :=
  match p with
  | EmptyString => EmptyString
  | String _ r => if Py.contains "/" p then basename r else p
  end.

Fixpoint ends_with_slash (p : string) : bool :=
  match p with
  | EmptyString => false
  | String c EmptyString => Ascii.eqb c "/"
  | String _ r => ends_with_slash r
  end.

(** [os.path.join(a, b)] (POSIX) *)
Definition path_join (a b : string) : string :=
  match b with
  | String "/" _ => b
  | _ => if negb (truthy a) || ends_with_slash a then a +:+ b else a +:+ "/" +:+ b
  end.

(** [self.output_file], line 19 *)
Definition output_file_name (module_path output_file : string) : string :=
  str_replace " " "_" (str_replace ".py" "" module_path) +:+ "-" +:+ output_file.

(** [self.checksum_file], line 23 *)
Definition checksum_file_name (module_path : string) : string :=
  path_join ".jsondata" (basename module_path +:+ ".checksums.json").

(** ** The exclusion list on disk *)

(** The directory [.jsondata]: [None] when it does not exist, otherwise
    the list in its file [exclude_help_ast.json], [None] when the file
    does not exist. *)
Definition jsondata : Type := option (option (list string)).

Definition _ensure_jsondata_dir_exists (j : jsondata) : jsondata :=
  match j with
  | None => Some None
  | Some _ => j
  end.

(** The list returned and the directory after the call. *)
Definition _load_exclusion_list (j : jsondata) : list string * jsondata :=
  match _ensure_jsondata_dir_exists j with
  | Some (Some l) => (l, Some (Some l))
  | _ => ([], Some (Some []))
  end.

(** ** Further example parameter lists *)

(** The keyword-only parameters [a] and [b], with the default [1] on
    [a], and with the same default on [b]. *)
Definition one_literal : expr := Expr (Loc 1 12 1 13) "Constant(value=1)" "1".

Definition kw_first_default : arguments :=
  Arguments [] [] None [Arg (Loc 1 9 1 10) "a" None; Arg (Loc 1 14 1 15) "b" None]
    [Some one_literal; None] None [].

Definition kw_second_default : arguments :=
  Arguments [] [] None [Arg (Loc 1 9 1 10) "a" None; Arg (Loc 1 12 1 13) "b" None]
    [None; Some one_literal] None [].


(** ** Notions for the usage example *)

(** The text has only ASCII characters: on such a text [Py.lower] and
    [Py.strip] are [str.lower] and [str.strip]. *)
Definition ascii_only (s : string) : bool :=
  all_chars (fun c => (N_of_ascii c <? 128)%N) s.







(** * Properties *)

(** The two test vectors of the standard's appendix. *)
Example sha256_empty :
  SHA256.hexdigest "" =
  "e3b0c44298fc1c149afbf4c8996fb92427ae41e4649b934ca495991b7852b855".
Proof. vm_compute. reflexivity. Qed.

Example sha256_abc :
  SHA256.hexdigest "abc" =
  "ba7816bf8f01cfea414140de5dae2223b00361a396177a9cb410ff61f20015ad".
Proof. vm_compute. reflexivity. Qed.

Example sha256_two_blocks :
  SHA256.hexdigest "abcdbcdecdefdefgefghfghighijhijkijkljklmklmnlmnomnopnopq" =
  "248d6a61d20638b8e5c026930c3e6039a33ce45964ff2167f6ecedd419db06c1".
Proof. vm_compute. reflexivity. Qed.

(** ** Strings *)

#[local] Arguments String.append : simpl nomatch.

Lemma append_length (s t : string) :
  String.length (s +:+ t) = String.length s + String.length t.
Proof. induction s as [|c s IH]; simpl; [done | by f_equal]. Qed.

Lemma append_assoc (s t u : string) : (s +:+ t) +:+ u = s +:+ t +:+ u.
Proof. induction s as [|c s IH]; simpl; [done | by f_equal]. Qed.

Lemma append_empty_r (s : string) : s +:+ "" = s.
Proof. induction s as [|c s IH]; simpl; [done | by f_equal]. Qed.

(** ** Dictionaries *)

Section Dict.
Implicit Types (d : pydict) (k v : string).

Lemma dict_get_Some_elem d k v : dict_get d k = Some v → (k, v) ∈ d.
Proof.
  induction d as [|[k' v'] d IH]; simpl; [done|].
  destruct (String.eqb_spec k k') as [->|Hne].
  - intros [= ->]. left.
  - intros H. right. by apply IH.
Qed.

Lemma dict_get_None d k : dict_get d k = None ↔ k ∉ dict_keys d.
Proof.
  induction d as [|[k' v'] d IH]; simpl.
  - split; [intros _; apply not_elem_of_nil | done].
  - destruct (String.eqb_spec k k') as [->|Hne].
    + split; [done|]. intros H. exfalso. apply H. left.
    + rewrite IH, not_elem_of_cons. tauto.
Qed.

Lemma dict_get_is_Some d k : is_Some (dict_get d k) ↔ k ∈ dict_keys d.
Proof.
  rewrite <- not_eq_None_Some, dict_get_None.
  split; [apply dec_stable | auto].
Qed.

Lemma elem_of_key_set d k : k ∈ key_set d ↔ is_Some (dict_get d k).
Proof. unfold key_set. by rewrite elem_of_list_to_set, dict_get_is_Some. Qed.

Lemma elem_dict_keys d k v : (k, v) ∈ d → k ∈ dict_keys d.
Proof.
  intros H. unfold dict_keys. apply list_elem_of_In, in_map_iff.
  exists (k, v). split; [done | by apply list_elem_of_In].
Qed.

Lemma dict_get_elem_NoDup d k v :
  NoDup (dict_keys d) → (k, v) ∈ d → dict_get d k = Some v.
Proof.
  induction d as [|[k' v'] d IH]; simpl; intros Hnd Hin.
  - by apply elem_of_nil in Hin.
  - apply NoDup_cons in Hnd as [Hk' Hnd].
    apply elem_of_cons in Hin as [[= -> ->]|Hin].
    + by rewrite String.eqb_refl.
    + destruct (String.eqb_spec k k') as [->|Hne]; [|by apply IH].
      exfalso. apply Hk'. by eapply elem_dict_keys.
Qed.

Lemma dict_keys_set d k v :
  dict_keys (dict_set d k v) =
  if bool_decide (k ∈ dict_keys d) then dict_keys d else dict_keys d ++ [k].
Proof.
  induction d as [|[k' v'] d IH]; simpl; [done|].
  destruct (String.eqb_spec k k') as [->|Hne]; simpl.
  - rewrite bool_decide_eq_true_2; [done | left].
  - rewrite IH. destruct (decide (k ∈ dict_keys d)) as [Hin|Hnin].
    + rewrite !bool_decide_eq_true_2; [done | by right | done].
    + rewrite !bool_decide_eq_false_2; [done | | done].
      rewrite not_elem_of_cons. done.
Qed.

Lemma dict_set_NoDup d k v : NoDup (dict_keys d) → NoDup (dict_keys (dict_set d k v)).
Proof.
  intros Hnd. rewrite dict_keys_set. case_bool_decide; [done|].
  apply NoDup_app. split_and!; [done | | apply NoDup_singleton].
  intros x Hx Hx'. apply list_elem_of_singleton in Hx' as ->. done.
Qed.

Lemma dict_get_set d k v k' :
  dict_get (dict_set d k v) k' = if String.eqb k' k then Some v else dict_get d k'.
Proof.
  induction d as [|[k0 v0] d IH]; simpl.
  - done.
  - destruct (String.eqb_spec k k0) as [->|Hne]; simpl.
    + destruct (String.eqb_spec k' k0); done.
    + rewrite IH. destruct (String.eqb_spec k' k0) as [->|]; [|done].
      destruct (String.eqb_spec k0 k); [congruence | done].
Qed.

End Dict.

(** The comparison says "changed" exactly when the key sets differ or a
    common key has two different checksums. *)
Lemma needs_update_true (cur prev : pydict) :
  NoDup (dict_keys cur) →
  needs_update cur prev = true ↔
    key_set cur ≠ key_set prev ∨
    ∃ k v v', dict_get cur k = Some v ∧ dict_get prev k = Some v' ∧ v ≠ v'.
Proof.
  intros Hnd. unfold needs_update. case_bool_decide as Hk.
  - split; [by left | done].
  - rewrite existsb_exists. split.
    + intros ([k v] & Hin & Hneq). right.
      apply list_elem_of_In in Hin. apply bool_decide_eq_true in Hneq. simpl in Hneq.
      assert (is_Some (dict_get prev k)) as [v' Hv'].
      { apply elem_of_key_set. rewrite <- Hk. apply elem_of_key_set.
        apply dict_get_is_Some. by eapply elem_dict_keys. }
      exists k, v, v'. split_and!; [by apply dict_get_elem_NoDup | done | congruence].
    + intros [? | (k & v & v' & Hc & Hp & Hne)]; [done|].
      exists (k, v). split.
      * apply list_elem_of_In. by apply dict_get_Some_elem.
      * apply bool_decide_eq_true. simpl. congruence.
Qed.

Lemma dict_keys_del (d : pydict) (k k' : string) :
  k' ∈ dict_keys (dict_del d k) ↔ k' ∈ dict_keys d ∧ k' ≠ k.
Proof.
  unfold dict_del. induction d as [|[k0 v0] d IH]; simpl.
  - rewrite !elem_of_nil. tauto.
  - rewrite filter_cons. simpl. case_decide as Hk; simpl.
    + rewrite !elem_of_cons, IH. split; [|tauto].
      intros [-> | [? ?]]; tauto.
    + subst k0.
      rewrite elem_of_cons, IH. split; [tauto|]. intros [[->|?] ?]; tauto.
Qed.

Lemma dict_del_NoDup (d : pydict) (k : string) :
  NoDup (dict_keys d) → NoDup (dict_keys (dict_del d k)).
Proof.
  unfold dict_del. induction d as [|[k0 v0] d IH]; simpl; intros Hnd.
  - constructor.
  - apply NoDup_cons in Hnd as [Hk0 Hnd]. rewrite filter_cons. simpl.
    case_decide; simpl; [|by apply IH].
    apply NoDup_cons. split; [|by apply IH].
    intros Hin. apply (dict_keys_del d k k0) in Hin. tauto.
Qed.

Lemma dict_get_del (d : pydict) (k k' : string) :
  dict_get (dict_del d k) k' = if String.eqb k' k then None else dict_get d k'.
Proof.
  unfold dict_del. induction d as [|[k0 v0] d IH]; simpl.
  - by destruct (String.eqb k' k).
  - rewrite filter_cons. simpl. case_decide as Hk; simpl.
    + rewrite IH. destruct (String.eqb_spec k' k0) as [->|]; [|done].
      destruct (String.eqb_spec k0 k); [congruence | done].
    + subst k0. rewrite IH.
      destruct (String.eqb_spec k' k); done.
Qed.

Lemma key_set_del (d : pydict) (k : string) :
  key_set (dict_del d k) = key_set d ∖ {[k]}.
Proof.
  apply set_eq. intros x. unfold key_set.
  rewrite elem_of_difference, !elem_of_list_to_set, dict_keys_del, elem_of_singleton.
  done.
Qed.

(** ** The walk *)

Lemma forest_size_app (l1 l2 : list node) :
  forest_size (l1 ++ l2) = forest_size l1 + forest_size l2.
Proof. unfold forest_size. by rewrite map_app, list_sum_app. Qed.

Lemma node_size_children (n : node) : node_size n = S (forest_size (children_of n)).
Proof. by destruct n. Qed.

Lemma forest_size_cons (n : node) (rest : list node) :
  forest_size (n :: rest) = S (forest_size (rest ++ children_of n)).
Proof.
  rewrite forest_size_app.
  change (forest_size (n :: rest)) with (node_size n + forest_size rest).
  rewrite node_size_children. lia.
Qed.

(** The fuel [walk] gives to the loop is enough: the loop stops on the
    empty queue, and more fuel yields the same nodes. *)
Lemma walk_queue_fuel (fuel : nat) (todo : list node) :
  forest_size todo ≤ fuel →
  walk_queue fuel todo = walk_queue (forest_size todo) todo.
Proof.
  revert todo. induction fuel as [|fuel IH]; intros todo Hle.
  - destruct todo as [|n rest]; [done|]. rewrite forest_size_cons in Hle. lia.
  - destruct todo as [|n rest]; [done|].
    rewrite forest_size_cons in *. cbn [walk_queue]. f_equal. apply IH. lia.
Qed.

Lemma walk_queue_length (fuel : nat) (todo : list node) :
  forest_size todo ≤ fuel → length (walk_queue fuel todo) = forest_size todo.
Proof.
  revert todo. induction fuel as [|fuel IH]; intros todo Hle.
  - destruct todo as [|n rest]; [done|]. rewrite forest_size_cons in Hle. lia.
  - destruct todo as [|n rest]; [done|].
    rewrite forest_size_cons in *. cbn [walk_queue length]. f_equal. apply IH. lia.
Qed.

(** ** The first pass *)

Lemma fold_record_NoDup (ns : list node) (d : pydict) :
  NoDup (dict_keys d) → NoDup (dict_keys (fold_left record_node ns d)).
Proof.
  revert d. induction ns as [|n ns IH]; intros d Hd; simpl; [done|].
  apply IH. unfold record_node. destruct (node_key n); [|done].
  by apply dict_set_NoDup.
Qed.

Lemma collect_checksums_NoDup (tree : module) :
  NoDup (dict_keys (collect_checksums tree)).
Proof. apply fold_record_NoDup. constructor. Qed.

(** C1.  On every run, [needs_update] comes out true exactly when the set
    of the keys just computed differs from the set of the persisted keys,
    or some key of both has two different checksums.  A key of both with
    the same checksum gives no signal: the outcome is the one of the two
    records without that key. *)
Theorem C1_needs_update_iff (w : world) (tree : module) :
  let current := collect_checksums tree in
  let previous := _load_checksums w in
  (needs_update current previous = true ↔
     key_set current ≠ key_set previous ∨
     ∃ k v v', dict_get current k = Some v ∧ dict_get previous k = Some v' ∧ v ≠ v')
  ∧ (∀ k v, dict_get current k = Some v → dict_get previous k = Some v →
       needs_update current previous =
       needs_update (dict_del current k) (dict_del previous k)).
Proof.
  intros current previous.
  pose proof (collect_checksums_NoDup tree) as Hnd. fold current in Hnd.
  split; [by apply needs_update_true|].
  intros k v Hc Hp.
  apply eq_true_iff_eq.
  rewrite (needs_update_true _ _ Hnd).
  rewrite (needs_update_true _ _ (dict_del_NoDup _ k Hnd)).
  rewrite !key_set_del.
  assert (k ∈ key_set current) as Hkc by (apply elem_of_key_set; eauto).
  assert (k ∈ key_set previous) as Hkp by (apply elem_of_key_set; eauto).
  split.
  - intros [Hne | (k' & v1 & v2 & H1 & H2 & Hv)].
    + left. intros Heq. apply Hne. apply set_eq. intros x.
      destruct (decide (x = k)) as [->|Hx]; [tauto|].
      assert (x ∈ key_set current ∖ {[k]} ↔ x ∈ key_set previous ∖ {[k]}) as Hiff
        by (by rewrite Heq).
      rewrite !elem_of_difference, !elem_of_singleton in Hiff. tauto.
    + right. exists k', v1, v2. rewrite !dict_get_del.
      destruct (String.eqb_spec k' k) as [->|]; [congruence | done].
  - intros [Hne | (k' & v1 & v2 & H1 & H2 & Hv)].
    + left. intros Heq. apply Hne. by rewrite Heq.
    + right. exists k', v1, v2. rewrite !dict_get_del in H1, H2.
      destruct (String.eqb_spec k' k); done.
Qed.

(** ** The second pass on a function that no class precedes *)

Lemma second_pass_unbound (self : HelpFileGen) (pre post : list node)
    (hc : list string) (l : loc) (name : string) (a : arguments)
    (body : list node) (decs : list expr) (doc : option string) :
  forallb (fun n => negb (is_class n)) pre = true →
  excluded self name = false →
  second_pass self None hc (pre ++ FunctionDef l name a body decs doc :: post) =
  Raised (UnboundLocalError "class_name").
Proof.
  intros Hpre Hex. revert hc.
  induction pre as [|n pre IH]; intros hc; simpl.
  - by rewrite Hex.
  - simpl in Hpre. apply andb_prop in Hpre as [Hn Hpre].
    destruct n as [l' name' a' b' d' doc'| |]; simpl in Hn; [|done|by apply IH].
    destruct (excluded self name'); [by apply IH | done].
Qed.

(** C10.  When a function that is not excluded stands in the module before
    any class, and the run does not stop at "no changes" (the checksums
    differ, or there is no help file yet), content generation ends in the
    unbound-variable error for [class_name]: no document, and the world
    is left as it was. *)
Theorem C10_function_before_class (self : HelpFileGen) (w : world) (tree : module)
    (pre post : list node) (l : loc) (name : string) (a : arguments)
    (body : list node) (decs : list expr) (doc : option string) :
  tree = pre ++ FunctionDef l name a body decs doc :: post →
  forallb (fun n => negb (is_class n)) pre = true →
  excluded self name = false →
  needs_update (collect_checksums tree) (_load_checksums w) = true
    ∨ output_exists w = false →
  _generate_help_content self w tree = (Raised (UnboundLocalError "class_name"), w)
  ∧ (overwrite self || negb (output_exists w) = true →
     generate_help_file self w tree = (Raised (UnboundLocalError "class_name"), w)).
Proof.
  intros -> Hpre Hex Hgo.
  assert (_generate_help_content self w
            (pre ++ FunctionDef l name a body decs doc :: post) =
          (Raised (UnboundLocalError "class_name"), w)) as Hg.
  { unfold _generate_help_content, render.
    rewrite second_pass_unbound by done.
    destruct Hgo as [-> | ->]; simpl; [done|]. by rewrite andb_false_r. }
  split; [done|].
  intros Hcall. unfold generate_help_file. by rewrite Hcall, Hg.
Qed.

(** The run on [def f(): pass] with no earlier state. *)
Lemma C10_function_before_class_witness :
  _generate_help_content (generator "m" []) fresh lone_function =
    (Raised (UnboundLocalError "class_name"), fresh)
  ∧ (overwrite (generator "m" []) || negb (output_exists fresh) = true →
     generate_help_file (generator "m" []) fresh lone_function =
       (Raised (UnboundLocalError "class_name"), fresh)).
Proof.
  refine (C10_function_before_class (generator "m" []) fresh lone_function
            [] [] (Loc 1 0 1 13) "f" no_arguments
            [OtherNode (Loc 1 9 1 13) "Pass()" []] [] None _ _ _ _).
  - reflexivity.
  - reflexivity.
  - vm_compute. reflexivity.
  - right. reflexivity.
Defined.

(** ** The comparison of a record with itself *)

Lemma needs_update_same (d : pydict) :
  NoDup (dict_keys d) → needs_update d d = false.
Proof.
  intros Hnd. apply not_true_is_false. rewrite needs_update_true by done.
  intros [? | (k & v & v' & H1 & H2 & Hne)]; congruence.
Qed.

(** ** Where a run stops *)

(** A run that returns has written the record of this run. *)
Lemma checksums_saved_on_return (self : HelpFileGen) (w w' : world)
    (tree : module) (document : string) :
  _generate_help_content self w tree = (Returned document, w') →
  checksum_store w' = Some (collect_checksums tree).
Proof.
  unfold _generate_help_content.
  destruct (negb _ && output_exists w).
  - by intros [= _ <-].
  - destruct (render self tree); [by intros [= _ <-] | done].
Qed.

(** C5.  On [def f(): pass] with no earlier state the module parses and
    its record has an entry, but the run ends in the error of the second
    pass before the line that saves the record: nothing is persisted. *)
Theorem C5_record_lost_on_abort :
  collect_checksums lone_function ≠ []
  ∧ needs_update (collect_checksums lone_function) (_load_checksums fresh) = true
  ∧ _generate_help_content (generator "m" []) fresh lone_function =
      (Raised (UnboundLocalError "class_name"), fresh)
  ∧ checksum_store
      (_generate_help_content (generator "m" []) fresh lone_function).2 = None.
Proof. vm_compute. split_and!; done. Qed.

(** C6.  The run stops at "no changes" (the line is printed, the empty
    document is returned, the second pass is not run) exactly when
    [needs_update] is false and the help file exists.  In every other
    case, and so whenever the help file does not exist yet, the result is
    the one of the second pass and nothing is printed. *)
Theorem C6_renderer_skipped_iff (self : HelpFileGen) (w : world) (tree : module) :
  let current := collect_checksums tree in
  let previous := _load_checksums w in
  let out := _generate_help_content self w tree in
  (out = (Returned "", _save_checksums (print w (no_changes_line self)) current)
   ∧ stdout out.2 = stdout w ++ [no_changes_line self]
     ↔ needs_update current previous = false ∧ output_exists w = true)
  ∧ (¬ (needs_update current previous = false ∧ output_exists w = true) →
       out.1 = render self tree ∧ stdout out.2 = stdout w)
  ∧ (output_exists w = false →
       out.1 = render self tree ∧ stdout out.2 = stdout w).
Proof.
  intros current previous out.
  assert (¬ (needs_update current previous = false ∧ output_exists w = true) →
          out.1 = render self tree ∧ stdout out.2 = stdout w) as Hrun.
  { intros Hn. subst out. unfold _generate_help_content.
    fold current previous.
    destruct (needs_update current previous) eqn:Hu, (output_exists w) eqn:Ho;
      simpl; try tauto; by destruct (render self tree). }
  split_and!; [|done|].
  - split.
    + intros [_ Hout].
      destruct (needs_update current previous) eqn:Hu, (output_exists w) eqn:Ho;
        try done; (destruct Hrun as [_ Hs]; [intros [? ?]; done|];
        rewrite Hs in Hout; apply (f_equal length) in Hout;
        rewrite length_app in Hout; simpl in Hout; lia).
    + intros [Hu Ho]. subst out. unfold _generate_help_content.
      fold current previous. rewrite Hu, Ho. done.
  - intros Ho. apply Hrun. intros [_ ?]. congruence.
Qed.

(** ** Two runs in succession *)

(** When the first run returns, the second run on the same tree finds
    nothing to update and leaves the persisted record as it is. *)
Lemma second_run_after_return (self : HelpFileGen) (w w1 : world)
    (tree : module) (document : string) :
  _generate_help_content self w tree = (Returned document, w1) →
  needs_update (collect_checksums tree) (_load_checksums w1) = false
  ∧ ∃ document' w2,
      _generate_help_content self w1 tree = (Returned document', w2)
      ∧ checksum_store w2 = checksum_store w1.
Proof.
  intros Hrun.
  pose proof (checksums_saved_on_return _ _ _ _ _ Hrun) as Hst.
  assert (needs_update (collect_checksums tree) (_load_checksums w1) = false) as Hu.
  { unfold _load_checksums. rewrite Hst.
    apply needs_update_same, collect_checksums_NoDup. }
  split; [done|]. revert Hrun Hu Hst.
  destruct w as [cs os so]. unfold _generate_help_content.
  destruct (needs_update _ (_load_checksums (World cs os so))), os as [o|],
    (render self tree) as [d|e] eqn:Hr; cbn -[collect_checksums];
    intros [= <- <-] Hu _; rewrite Hu; cbn -[collect_checksums];
    rewrite ?Hr; eauto.
Qed.

(** The same for the whole of [generate_help_file], the second run
    starting in the world the first one left. *)
Lemma generate_twice_after_return (self : HelpFileGen) (w w1 : world) (tree : module) :
  generate_help_file self w tree = (Returned tt, w1) →
  ∃ w2, generate_help_file self w1 tree = (Returned tt, w2)
        ∧ checksum_store w2 = checksum_store w1.
Proof.
  pose proof (needs_update_same _ (collect_checksums_NoDup tree)) as Hsame.
  destruct w as [cs os so].
  unfold generate_help_file, _generate_help_content, _load_checksums,
    output_exists, _save_checksums, print, _update_help_file_incrementally.
  cbn [checksum_store output_store stdout].
  destruct (overwrite self), os as [o|],
    (needs_update (collect_checksums tree) (match cs with Some d => d | None => [] end)),
    (render self tree) as [d|e] eqn:Hr; cbn -[collect_checksums];
    try destruct (truthy d) eqn:Ht; intros [= <-]; cbn -[collect_checksums];
    rewrite ?Hsame, ?Hr; cbn -[collect_checksums]; rewrite ?Ht; eauto.
Qed.

(** C7.  On [def f(): pass] the first run ends in the error of the second
    pass and persists nothing, so the second run on the unchanged module
    compares the record with an empty one: [needs_update] is true again,
    and the run ends in the same error. *)
Theorem C7_second_run_after_abort :
  let self := generator "m" [] in
  let first := generate_help_file self fresh lone_function in
  let second := generate_help_file self first.2 lone_function in
  first = (Raised (UnboundLocalError "class_name"), fresh)
  ∧ needs_update (collect_checksums lone_function) (_load_checksums first.2) = true
  ∧ second = (Raised (UnboundLocalError "class_name"), fresh).
Proof. vm_compute. split_and!; done. Qed.

(** ** The keys of the record *)

Lemma fold_record_get (ns : list node) (d : pydict) (k : string) :
  dict_get (fold_left record_node ns d) k =
  match last (filter (fun n => node_key n = Some k) ns) with
  | Some n => Some (_calculate_node_checksum n)
  | None => dict_get d k
  end.
Proof.
  induction ns as [|n ns IH] using rev_ind; [done|].
  rewrite fold_left_app, filter_app. cbn [fold_left].
  unfold record_node at 1. rewrite filter_cons, filter_nil.
  destruct (node_key n) as [k'|] eqn:Hk.
  - rewrite dict_get_set. destruct (String.eqb_spec k k') as [->|Hne].
    + rewrite decide_True by done. by rewrite last_snoc.
    + rewrite decide_False by congruence. by rewrite app_nil_r.
  - rewrite decide_False by done. by rewrite app_nil_r.
Qed.

Lemma class_key_not_name (name : string) : "class_" +:+ name ≠ name.
Proof.
  intros H. apply (f_equal String.length) in H.
  rewrite append_length in H. simpl in H. lia.
Qed.

(** C3, as the code has it.  After the first run on the [Greeter] module,
    whatever the options and the exclusion list, the persisted record has
    three keys, in this order: the class, its constructor and [greet]. *)
Theorem C3_greeter_persisted_keys (self : HelpFileGen) :
  dict_keys <$> checksum_store (generate_help_file self fresh greeter).2 =
  Some ["class_Greeter"; "__init__"; "greet"].
Proof.
  unfold generate_help_file. replace (output_exists fresh) with false by done.
  rewrite orb_true_r. unfold _generate_help_content.
  replace (output_exists fresh) with false by done. rewrite andb_false_r.
  unfold render. cbn [greeter second_pass].
  match goal with |- context [truthy ?d] => destruct (truthy d) end; done.
Qed.

(** C3, as the specification states it, fails: the record persisted after the first
    run on the [Greeter] module is not the two keys [class_Greeter] and
    [greet], it has the key [__init__] as well. *)
Lemma C3_greeter_two_keys_counterexample :
  ∃ d, checksum_store (generate_help_file (generator "greeter" []) fresh greeter).2 = Some d
       ∧ length (dict_keys d) = 3
       ∧ "__init__" ∈ key_set d
       ∧ key_set d ≠ {[ "class_Greeter"; "greet" ]}.
Proof.
  eexists. split; [vm_compute; reflexivity|].
  split; [done|].
  split; apply (bool_decide_unpack _); vm_compute; exact I.
Qed.

(** C4, as the code has it.  The key of a function or method is its bare
    name and the key of a class is [class_] followed by its name.  So a
    function and a class of the same name have different keys, while two
    functions of the same name have the same key wherever they stand;
    and the record keeps, for each key, the checksum of the definition
    with that key that the walk meets last. *)
Theorem C4_record_keys (tree : module) (k : string) :
  (∀ l l' name a body decs doc bases body' decs' doc',
     node_key (FunctionDef l name a body decs doc) ≠
     node_key (ClassDef l' name bases body' decs' doc'))
  ∧ (∀ l l' name a a' body body' decs decs' doc doc',
     node_key (FunctionDef l name a body decs doc) =
     node_key (FunctionDef l' name a' body' decs' doc'))
  ∧ dict_get (collect_checksums tree) k =
    _calculate_node_checksum <$>
      last (filter (fun n => node_key n = Some k) (walk tree)).
Proof.
  split_and!.
  - intros * [= H]. symmetry in H. by apply class_key_not_name in H.
  - done.
  - unfold collect_checksums. rewrite fold_record_get.
    by destruct (last _).
Qed.

(** C4, as the specification states it, fails: in [two_runners] the methods [A.run]
    and [B.run] are two definitions with two checksums and one key, the
    record has three entries for the four definitions, and the entry of
    [run] is the checksum of [B.run]. *)
Lemma C4_same_key_counterexample :
  let a_run := runner (Loc 2 4 3 12) "Run A." in
  let b_run := runner (Loc 6 4 7 12) "Run B." in
  a_run ∈ walk two_runners ∧ b_run ∈ walk two_runners
  ∧ a_run ≠ b_run
  ∧ node_key a_run = node_key b_run
  ∧ _calculate_node_checksum a_run ≠ _calculate_node_checksum b_run
  ∧ length (filter (fun n => is_Some (node_key n)) (walk two_runners)) = 4
  ∧ length (collect_checksums two_runners) = 3
  ∧ dict_get (collect_checksums two_runners) "run" = Some (_calculate_node_checksum b_run).
Proof.
  intros a_run b_run. split_and!.
  - apply list_elem_of_In. vm_compute. tauto.
  - apply list_elem_of_In. vm_compute. tauto.
  - discriminate.
  - reflexivity.
  - apply (bool_decide_unpack _). vm_compute. exact I.
  - vm_compute. reflexivity.
  - vm_compute. reflexivity.
  - vm_compute. reflexivity.
Qed.

(** ** The table of contents *)

Lemma second_pass_extends (self : HelpFileGen) (body : list node)
    (cn : option string) (hc hc' : list string) :
  second_pass self cn hc body = Returned hc' →
  ∃ ext, hc' = hc ++ ext
         ∧ (nonempty ext = true ↔
            existsb (fun n => is_class n || is_live_function self n) body = true).
Proof.
  revert cn hc. induction body as [|n body IH]; intros cn hc; simpl.
  - intros [= <-]. exists []. split; [by rewrite app_nil_r | done].
  - destruct n as [l name a b d doc | l name bs b d doc | l dumped ch]; simpl.
    + destruct (excluded self name) eqn:Hex; simpl.
      * apply IH.
      * destruct (function_entry self cn name a doc) as [entry|e]; [|done].
        intros H. apply IH in H as (ext & -> & _).
        exists (entry :: ext). split; [by rewrite <- app_assoc | done].
    + intros H. apply IH in H as (ext & -> & _).
      exists (class_content self name b ++ ext).
      split; [by rewrite <- app_assoc | done].
    + apply IH.
Qed.

(** C8, as the code has it.  The [Classes] list of the table of contents
    links every class of the top level, excluded or not; the [Functions]
    list links the functions of the top level whose name is not in the
    exclusion list.  When the second pass returns, the table is put in
    front of the entries exactly when there is an entry, that is when the
    top level has a class or a function that is not excluded; with no
    entry the document is empty. *)
Theorem C8_table_of_contents (self : HelpFileGen) (tree : module) :
  class_anchors tree =
    (fun name => link name (class_anchor name)) <$> toplevel_classes tree
  ∧ func_anchors self tree =
    (fun name => link name (func_anchor name)) <$>
      filter (fun name => name ∉ exclusion_list self) (toplevel_functions tree)
  ∧ (∀ help_content, second_pass self None [] tree = Returned help_content →
       (nonempty help_content = true ↔
        existsb (fun n => is_class n || is_live_function self n) tree = true)
       ∧ render self tree =
         Returned (if nonempty help_content
                   then Py.join (Py.LF +:+ Py.LF)
                          (table_of_contents self tree :: help_content)
                   else "")).
Proof.
  split_and!.
  - induction tree as [|n tree IH]; [done|].
    destruct n; simpl; rewrite IH; done.
  - induction tree as [|n tree IH]; [done|].
    destruct n as [l name a b d doc| |]; simpl; [|done..].
    unfold excluded. rewrite filter_cons. case_bool_decide as Hin.
    + by rewrite decide_False by tauto.
    + rewrite decide_True by done. by rewrite IH.
  - intros hc Hsp. split.
    + apply second_pass_extends in Hsp as (ext & -> & Hext). done.
    + unfold render, with_toc. rewrite Hsp. by destruct hc.
Qed.

(** C8, as the specification states it, fails: with [A] in the exclusion list, the
    class [A] of [class A: pass] is still linked in the [Classes] list of
    the table of contents of the document. *)
Lemma C8_excluded_class_counterexample :
  let self := generator "m" ["A"] in
  excluded self "A" = true
  ∧ class_anchors lone_class = ["[`A`](#class-a)"]
  ∧ table_of_contents self lone_class =
    Py.join Py.LF [anchor_tag "top"; "## Table of Contents" +:+ Py.LF;
                   "### Classes:" +:+ Py.LF; "[`A`](#class-a)"; Py.LF]
  ∧ render self lone_class =
    Returned (Py.join (Py.LF +:+ Py.LF)
                [table_of_contents self lone_class;
                 anchor_tag "class-a"; "## Class: `A`" +:+ Py.LF]).
Proof. split_and!; vm_compute; reflexivity. Qed.

(** ** The usage example *)

(** The index computed at line 84 is always inside [defaults]: the
    subscript of line 85 does not raise. *)
Lemma positional_default_in_range (a : arguments) (i : nat) :
  i < length (args a) →
  (Z.of_nat (length (args a)) - Z.of_nat (length (defaults a)) <=? Z.of_nat i)%Z = true →
  nonempty (defaults a) = true →
  is_Some (defaults a !! Z.to_nat
             (Z.of_nat i - (Z.of_nat (length (args a)) - Z.of_nat (length (defaults a))))).
Proof.
  intros Hi Hle Hne. apply lookup_lt_is_Some.
  apply Z.leb_le in Hle. lia.
Qed.


(** ** The signature string is read back in one way only *)

Lemma read_repr_char_inv (q c : ascii) (rest : string) :
  q = Py.squote ∨ q = Py.dquote →
  read_repr_char q (Py.repr_char q c +:+ rest) = Some (c, rest).
Proof.
  intros [-> | ->]; destruct c as [[] [] [] [] [] [] [] []]; reflexivity.
Qed.

Lemma read_repr_char_quote (q : ascii) (rest : string) :
  q = Py.squote ∨ q = Py.dquote → read_repr_char q (String q rest) = None.
Proof. intros [-> | ->]; reflexivity. Qed.

Lemma repr_body_inj (q : ascii) (s1 s2 r1 r2 : string) :
  q = Py.squote ∨ q = Py.dquote →
  Py.repr_body q s1 +:+ String q r1 = Py.repr_body q s2 +:+ String q r2 →
  s1 = s2 ∧ r1 = r2.
Proof.
  intros Hq. revert s2.
  induction s1 as [|c1 s1 IH]; intros [|c2 s2] H; cbn [Py.repr_body] in H.
  - injection H as ->. done.
  - rewrite append_assoc in H. apply (f_equal (read_repr_char q)) in H.
    cbn [append] in H.
    rewrite read_repr_char_quote, read_repr_char_inv in H by done. done.
  - rewrite append_assoc in H. apply (f_equal (read_repr_char q)) in H.
    cbn [append] in H.
    rewrite read_repr_char_quote, read_repr_char_inv in H by done. done.
  - rewrite !append_assoc in H. apply (f_equal (read_repr_char q)) in H.
    rewrite !read_repr_char_inv in H by done.
    injection H as -> H. apply IH in H as [-> ->]. done.
Qed.

Lemma repr_quote_cases (s : string) :
  Py.repr_quote s = Py.squote ∨ Py.repr_quote s = Py.dquote.
Proof. unfold Py.repr_quote. destruct (_ && _); auto. Qed.

Lemma repr_str_inj (s1 s2 r1 r2 : string) :
  Py.repr_str s1 +:+ r1 = Py.repr_str s2 +:+ r2 → s1 = s2 ∧ r1 = r2.
Proof.
  unfold Py.repr_str. intros H. cbn [append] in H.
  injection H as Hq H. rewrite !append_assoc in H. cbn [append] in H.
  rewrite <- Hq in H. eapply repr_body_inj; [apply repr_quote_cases | done].
Qed.

Lemma join_cons (sep x : string) (xs : list string) :
  Py.join sep (x :: xs) =
  x +:+ match xs with [] => "" | _ => sep +:+ Py.join sep xs end.
Proof. destruct xs; simpl; [by rewrite append_empty_r | done]. Qed.

Lemma join_app (sep : string) (l1 l2 : list string) :
  nonempty l1 = true → nonempty l2 = true →
  Py.join sep (l1 ++ l2) = Py.join sep l1 +:+ sep +:+ Py.join sep l2.
Proof.
  intros H1 H2. induction l1 as [|x l1 IH]; [done|].
  destruct l1 as [|y l1].
  - destruct l2; [done|]. reflexivity.
  - cbn [app] in *. rewrite (join_cons sep x), IH by done.
    rewrite (join_cons sep x (y :: l1)). by rewrite !append_assoc.
Qed.

(** One joined group in place of its members. *)
Lemma join_group (sep : string) (l rest : list string) :
  Py.join sep ((if nonempty l then [Py.join sep l] else []) ++ rest) =
  Py.join sep (l ++ rest).
Proof.
  destruct l as [|x l]; [done|]. cbn [nonempty].
  destruct rest as [|y rest]; [by rewrite !app_nil_r|].
  rewrite (join_app sep (x :: l)) by done.
  cbn [app]. by rewrite join_cons.
Qed.

Lemma join_repr_rest (x : string) (xs : list string) (r : string) :
  Py.join ", " (map Py.repr_str (x :: xs)) +:+ "]" +:+ r =
  Py.repr_str x +:+ repr_rest xs r.
Proof.
  revert x. induction xs as [|y xs IH]; intros x.
  - reflexivity.
  - cbn [map]. rewrite join_cons. cbn [map] in IH.
    rewrite !append_assoc. rewrite IH. reflexivity.
Qed.

Lemma repr_rest_inj (l1 l2 : list string) (r1 r2 : string) :
  repr_rest l1 r1 = repr_rest l2 r2 → l1 = l2 ∧ r1 = r2.
Proof.
  revert l2. induction l1 as [|x l1 IH]; intros [|y l2] H; cbn [repr_rest] in H.
  - by injection H as ->.
  - discriminate.
  - discriminate.
  - apply String.app_inj in H. apply repr_str_inj in H as [-> H].
    apply IH in H as [-> ->]. done.
Qed.

Lemma repr_str_head (s : string) :
  ∃ t, Py.repr_str s = String Py.squote t ∨ Py.repr_str s = String Py.dquote t.
Proof.
  unfold Py.repr_str. destruct (repr_quote_cases s) as [-> | ->]; eauto.
Qed.

Lemma repr_list_inj (l1 l2 : list string) (r1 r2 : string) :
  Py.repr_list l1 +:+ r1 = Py.repr_list l2 +:+ r2 → l1 = l2 ∧ r1 = r2.
Proof.
  unfold Py.repr_list. rewrite !append_assoc. intros H.
  apply String.app_inj in H.
  destruct l1 as [|x l1], l2 as [|y l2].
  - by injection H as ->.
  - rewrite join_repr_rest in H. exfalso.
    destruct (repr_str_head y) as [t [Ht | Ht]]; rewrite Ht in H; discriminate.
  - rewrite join_repr_rest in H. exfalso.
    destruct (repr_str_head x) as [t [Ht | Ht]]; rewrite Ht in H; discriminate.
  - rewrite !join_repr_rest in H. apply repr_str_inj in H as [-> H].
    apply repr_rest_inj in H as [-> ->]. done.
Qed.

Lemma contains_append (c : ascii) (s t : string) :
  Py.contains c (s +:+ t) = Py.contains c s || Py.contains c t.
Proof.
  induction s as [|d s IH]; [done|]. cbn [append Py.contains].
  destruct (Ascii.eqb c d); [done | apply IH].
Qed.

Lemma contains_join (c : ascii) (sep : string) (l : list string) :
  Py.contains c sep = false →
  forallb (fun x => negb (Py.contains c x)) l = true →
  Py.contains c (Py.join sep l) = false.
Proof.
  intros Hsep. induction l as [|x l IH]; [done|].
  cbn [forallb]. intros [Hx Hl]%andb_prop. rewrite join_cons, contains_append.
  apply negb_true_iff in Hx. rewrite Hx. destruct l; [done|].
  rewrite contains_append, Hsep. by apply IH.
Qed.

(** A text without [c], followed by nothing or by [c], is read back in
    one way only. *)
Lemma prefix_unique (c : ascii) (x y r1 r2 : string) :
  Py.contains c x = false → Py.contains c y = false →
  begins c r1 = true → begins c r2 = true →
  x +:+ r1 = y +:+ r2 → x = y ∧ r1 = r2.
Proof.
  revert y. induction x as [|d x IH]; intros [|e y] Hx Hy H1 H2 H;
    cbn [append Py.contains] in *.
  - done.
  - subst r1. cbn [begins] in H1. by rewrite H1 in Hy.
  - subst r2. cbn [begins] in H2. by rewrite H2 in Hx.
  - injection H as -> H.
    destruct (Ascii.eqb c e); [done|].
    apply IH in H as [-> ->]; done.
Qed.

Lemma join_inj (c : ascii) (sep : string) (l1 l2 : list string) :
  forallb (fun x => truthy x && negb (Py.contains c x)) l1 = true →
  forallb (fun x => truthy x && negb (Py.contains c x)) l2 = true →
  Py.join (String c sep) l1 = Py.join (String c sep) l2 → l1 = l2.
Proof.
  revert l2. induction l1 as [|x l1 IH]; intros [|y l2] H1 H2 H.
  - done.
  - cbn [forallb] in H2. apply andb_prop in H2 as [[Hy _]%andb_prop _].
    rewrite join_cons in H. destruct y; done.
  - cbn [forallb] in H1. apply andb_prop in H1 as [[Hx _]%andb_prop _].
    rewrite join_cons in H. destruct x; done.
  - cbn [forallb] in H1, H2.
    apply andb_prop in H1 as [[_ Hx%negb_true_iff]%andb_prop H1].
    apply andb_prop in H2 as [[_ Hy%negb_true_iff]%andb_prop H2].
    rewrite !join_cons in H.
    apply (prefix_unique c) in H as [-> H]; [| done | done | by destruct l1; cbn; rewrite ?Ascii.eqb_refl | by destruct l2; cbn; rewrite ?Ascii.eqb_refl].
    destruct l1 as [|x1 l1], l2 as [|y1 l2]; [done | done | done |].
    apply String.app_inj in H. by rewrite (IH _ H1 H2 H).
Qed.

Lemma nonempty_map {A B} (f : A → B) (l : list A) : nonempty (map f l) = nonempty l.
Proof. by destruct l. Qed.

Lemma join_app_congr (sep : string) (pre l l' : list string) :
  nonempty l = nonempty l' → Py.join sep l = Py.join sep l' →
  Py.join sep (pre ++ l) = Py.join sep (pre ++ l').
Proof.
  intros Hne Hj. destruct pre as [|p pre]; [done|].
  destruct l as [|x l], l' as [|x' l']; [done | done | done |].
  rewrite !(join_app sep (p :: pre)) by done. by rewrite Hj.
Qed.

Lemma parts_tokens (a : arguments) :
  Py.join ", "
    ((if nonempty (map arg_name (args a)) then [Py.join ", " (map arg_name (args a))] else []) ++
     (if truthy (star_name "*" (vararg a)) then [star_name "*" (vararg a)] else []) ++
     (if nonempty (map arg_name (kwonlyargs a))
      then ["*"; Py.join ", " (map arg_name (kwonlyargs a))] else []) ++
     (if truthy (star_name "**" (kwarg a)) then [star_name "**" (kwarg a)] else [])) =
  Py.join ", " (tokens a).
Proof.
  unfold tokens, kwonly_tokens. rewrite (nonempty_map arg_name (kwonlyargs a)).
  replace (if truthy (star_name "*" (vararg a)) then [star_name "*" (vararg a)] else [])
    with (star_token "*" (vararg a)) by (by destruct (vararg a)).
  replace (if truthy (star_name "**" (kwarg a)) then [star_name "**" (kwarg a)] else [])
    with (star_token "**" (kwarg a)) by (by destruct (kwarg a)).
  rewrite join_group.
  apply join_app_congr. { by destruct (star_token "*" (vararg a)), (kwonlyargs a). }
  apply join_app_congr. { by destruct (kwonlyargs a). }
  destruct (kwonlyargs a) as [|k ks]; [done|].
  cbn [nonempty app]. rewrite !(join_cons _ "*"). cbn [app].
  change (Py.join ", " (map arg_name (k :: ks)) :: star_token "**" (kwarg a))
    with ((if nonempty (map arg_name (k :: ks))
           then [Py.join ", " (map arg_name (k :: ks))] else []) ++
          star_token "**" (kwarg a)).
  by rewrite join_group.
Qed.

Lemma signature_tokens (a : arguments) :
  _get_function_signature a =
  "(" +:+ Py.join ", " (tokens a) +:+ ")" +:+ defaults_text a +:+ kw_defaults_text a.
Proof. unfold _get_function_signature. by rewrite parts_tokens. Qed.

Lemma all_chars_contains (p : ascii → bool) (c : ascii) (s : string) :
  all_chars p s = true → p c = false → Py.contains c s = false.
Proof.
  intros Hs Hc. induction s as [|d s IH]; [done|].
  cbn [all_chars Py.contains] in *. apply andb_prop in Hs as [Hd Hs].
  destruct (Ascii.eqb_spec c d) as [->|_]; [congruence | by apply IH].
Qed.

Lemma identifier_contains (c : ascii) (s : string) :
  is_identifier s = true → is_ident_char c = false → Py.contains c s = false.
Proof.
  destruct s as [|d s]; [done|]. unfold is_identifier.
  intros [_ Hs]%andb_prop. by apply (all_chars_contains is_ident_char).
Qed.

Lemma identifier_truthy (s : string) : is_identifier s = true → truthy s = true.
Proof. by destruct s. Qed.

Lemma identifier_plain (s : string) : is_identifier s = true → plain s = true.
Proof.
  destruct s as [|c s]; [done|]. unfold is_identifier. intros [_ Hs]%andb_prop.
  cbn [all_chars] in Hs. apply andb_prop in Hs as [Hc _]. cbn [plain].
  destruct (Ascii.eqb_spec c "*") as [->|]; done.
Qed.

Lemma plain_prefix_unique (l1 l2 r1 r2 : list string) :
  forallb plain l1 = true → forallb plain l2 = true →
  starts_starred r1 = true → starts_starred r2 = true →
  l1 ++ r1 = l2 ++ r2 → l1 = l2 ∧ r1 = r2.
Proof.
  revert l2. induction l1 as [|x l1 IH]; intros [|y l2] H1 H2 Hr1 Hr2 H;
    cbn [app forallb] in *.
  - done.
  - subst r1. cbn in Hr1. apply andb_prop in H2 as [Hy _]. by rewrite Hy in Hr1.
  - subst r2. cbn in Hr2. apply andb_prop in H1 as [Hx _]. by rewrite Hx in Hr2.
  - injection H as -> H. apply andb_prop in H1 as [_ H1]. apply andb_prop in H2 as [_ H2].
    apply IH in H as [-> ->]; done.
Qed.

Lemma forallb_identifier_plain (l : list string) :
  forallb is_identifier l = true → forallb plain l = true.
Proof.
  induction l as [|x l IH]; [done|]. cbn [forallb].
  intros [Hx Hl]%andb_prop. by rewrite identifier_plain, IH.
Qed.

Lemma star_token_inj (o1 o2 : option arg) :
  star_token "**" o1 = star_token "**" o2 →
  option_map arg_name o1 = option_map arg_name o2.
Proof.
  destruct o1, o2; cbn; [|done..]. intros [= H]. by rewrite H.
Qed.

Lemma kw_tokens_inj (a1 a2 : arguments) :
  well_named a1 = true → well_named a2 = true →
  kwonly_tokens a1 ++ star_token "**" (kwarg a1) =
  kwonly_tokens a2 ++ star_token "**" (kwarg a2) →
  map arg_name (kwonlyargs a1) = map arg_name (kwonlyargs a2)
  ∧ option_map arg_name (kwarg a1) = option_map arg_name (kwarg a2).
Proof.
  unfold well_named, kwonly_tokens.
  intros [[[_ _]%andb_prop Hk1]%andb_prop _]%andb_prop
         [[[_ _]%andb_prop Hk2]%andb_prop _]%andb_prop.
  rewrite <- !(nonempty_map arg_name).
  destruct (map arg_name (kwonlyargs a1)) as [|x1 k1],
           (map arg_name (kwonlyargs a2)) as [|x2 k2];
    cbn [nonempty]; intros H.
  - split; [done | by apply star_token_inj].
  - destruct (kwarg a1); discriminate.
  - destruct (kwarg a2); discriminate.
  - apply (f_equal (@tail _)) in H. cbn [tail app] in H.
    change (x1 :: k1 ++ ?r) with ((x1 :: k1) ++ r) in H.
    change (x2 :: k2 ++ ?r) with ((x2 :: k2) ++ r) in H.
    apply plain_prefix_unique in H as [H1 H2];
      [| by apply forallb_identifier_plain | by apply forallb_identifier_plain
       | by destruct (kwarg a1) | by destruct (kwarg a2)].
    split; [done | by apply star_token_inj].
Qed.

Lemma vararg_token_not_kw (v : string) (rest : list string) (a : arguments) :
  is_identifier v = true →
  ("*" +:+ v) :: rest ≠ kwonly_tokens a ++ star_token "**" (kwarg a).
Proof.
  intros Hv Heq. unfold kwonly_tokens in Heq.
  destruct (kwonlyargs a); cbn [nonempty app] in Heq.
  - destruct (kwarg a); [|done]. injection Heq as Hn _. by rewrite Hn in Hv.
  - injection Heq as Hn _. by rewrite Hn in Hv.
Qed.

Lemma star_tokens_inj (a1 a2 : arguments) :
  well_named a1 = true → well_named a2 = true →
  star_token "*" (vararg a1) ++ kwonly_tokens a1 ++ star_token "**" (kwarg a1) =
  star_token "*" (vararg a2) ++ kwonly_tokens a2 ++ star_token "**" (kwarg a2) →
  option_map arg_name (vararg a1) = option_map arg_name (vararg a2)
  ∧ map arg_name (kwonlyargs a1) = map arg_name (kwonlyargs a2)
  ∧ option_map arg_name (kwarg a1) = option_map arg_name (kwarg a2).
Proof.
  intros W1 W2 H.
  assert (option_all (fun x => is_identifier (arg_name x)) (vararg a1) = true) as V1.
  { unfold well_named in W1. by apply andb_prop in W1 as [[[_ ?]%andb_prop _]%andb_prop _]. }
  assert (option_all (fun x => is_identifier (arg_name x)) (vararg a2) = true) as V2.
  { unfold well_named in W2. by apply andb_prop in W2 as [[[_ ?]%andb_prop _]%andb_prop _]. }
  destruct (vararg a1) as [v1|], (vararg a2) as [v2|];
    cbn [star_token app option_map option_all] in *.
  - injection H as Hv H. rewrite Hv. split; [done|]. by apply kw_tokens_inj.
  - exfalso. by eapply vararg_token_not_kw.
  - exfalso. symmetry in H. by eapply vararg_token_not_kw.
  - split; [done|]. by apply kw_tokens_inj.
Qed.

Lemma starts_starred_tokens (a : arguments) :
  starts_starred
    (star_token "*" (vararg a) ++ kwonly_tokens a ++ star_token "**" (kwarg a)) = true.
Proof.
  unfold kwonly_tokens.
  destruct (vararg a), (kwonlyargs a), (kwarg a); reflexivity.
Qed.

Lemma tokens_inj (a1 a2 : arguments) :
  well_named a1 = true → well_named a2 = true →
  tokens a1 = tokens a2 →
  map arg_name (args a1) = map arg_name (args a2)
  ∧ option_map arg_name (vararg a1) = option_map arg_name (vararg a2)
  ∧ map arg_name (kwonlyargs a1) = map arg_name (kwonlyargs a2)
  ∧ option_map arg_name (kwarg a1) = option_map arg_name (kwarg a2).
Proof.
  intros W1 W2 H. unfold tokens in H.
  apply plain_prefix_unique in H as [Hn H].
  - split; [done|]. by apply star_tokens_inj.
  - apply forallb_identifier_plain. unfold well_named in W1.
    by apply andb_prop in W1 as [[[? _]%andb_prop _]%andb_prop _].
  - apply forallb_identifier_plain. unfold well_named in W2.
    by apply andb_prop in W2 as [[[? _]%andb_prop _]%andb_prop _].
  - apply starts_starred_tokens.
  - apply starts_starred_tokens.
Qed.

Lemma identifier_clean (s : string) : is_identifier s = true → clean_token s = true.
Proof.
  intros Hs. unfold clean_token.
  by rewrite identifier_truthy, !identifier_contains.
Qed.

Lemma forallb_identifier_clean (l : list string) :
  forallb is_identifier l = true → forallb clean_token l = true.
Proof.
  induction l as [|x l IH]; [done|]. cbn [forallb].
  intros [Hx Hl]%andb_prop. by rewrite identifier_clean, IH.
Qed.

Lemma star_token_clean (p : string) (o : option arg) :
  p = "*" ∨ p = "**" →
  option_all (fun x => is_identifier (arg_name x)) o = true →
  forallb clean_token (star_token p o) = true.
Proof.
  intros Hp Ho. destruct o as [x|]; [|done]. cbn in *.
  apply identifier_clean in Ho. unfold clean_token in *.
  apply andb_prop in Ho as [[_ H1]%andb_prop H2].
  destruct Hp as [-> | ->]; cbn; by rewrite H1, H2.
Qed.

Lemma tokens_clean (a : arguments) :
  well_named a = true → forallb clean_token (tokens a) = true.
Proof.
  unfold well_named, tokens, kwonly_tokens.
  intros [[[Hn Hv]%andb_prop Hk]%andb_prop Hkw]%andb_prop.
  rewrite !forallb_app. rewrite forallb_identifier_clean by done.
  rewrite !star_token_clean by auto.
  destruct (kwonlyargs a); [done|]. cbn [nonempty forallb].
  by rewrite forallb_identifier_clean.
Qed.

Lemma forallb_impl {A} (p q : A → bool) (l : list A) :
  (∀ x, p x = true → q x = true) → forallb p l = true → forallb q l = true.
Proof.
  intros Hpq. induction l as [|x l IH]; [done|]. cbn [forallb].
  intros [Hx Hl]%andb_prop. by rewrite Hpq, IH.
Qed.

Lemma nonempty_false {A} (l : list A) : nonempty l = false → l = [].
Proof. by destruct l. Qed.

Lemma repr_list_inj_whole (l1 l2 : list string) :
  Py.repr_list l1 = Py.repr_list l2 → l1 = l2.
Proof.
  intros H. rewrite <- (append_empty_r (Py.repr_list l1)) in H.
  rewrite <- (append_empty_r (Py.repr_list l2)) in H.
  by apply repr_list_inj in H as [-> _].
Qed.

Lemma tagged_inj (c : ascii) (tag : string) (l1 l2 : list string) :
  tagged (String c tag) l1 = tagged (String c tag) l2 → l1 = l2.
Proof.
  unfold tagged. destruct l1, l2; cbn [nonempty append]; [done | done | done |].
  intros H. injection H as H. apply String.app_inj in H. by apply repr_list_inj_whole.
Qed.

Lemma tagged_texts_inj (d1 d2 k1 k2 : list string) :
  tagged " defaults=" d1 +:+ tagged " kw_defaults=" k1 =
  tagged " defaults=" d2 +:+ tagged " kw_defaults=" k2 →
  d1 = d2 ∧ k1 = k2.
Proof.
  destruct d1 as [|x d1], d2 as [|y d2].
  - cbn [tagged nonempty append]. intros H%tagged_inj. done.
  - unfold tagged at 1 3. cbn [nonempty append].
    destruct k1; cbn [tagged nonempty append]; discriminate.
  - unfold tagged at 1 3. cbn [nonempty append].
    destruct k2; cbn [tagged nonempty append]; discriminate.
  - unfold tagged at 1 3. cbn [nonempty]. rewrite !append_assoc. intros H.
    apply String.app_inj in H. apply repr_list_inj in H as [-> H%tagged_inj].
    done.
Qed.

Lemma defaults_texts_inj (a1 a2 : arguments) :
  defaults_text a1 +:+ kw_defaults_text a1 = defaults_text a2 +:+ kw_defaults_text a2 →
  map dump (defaults a1) = map dump (defaults a2)
  ∧ map dump (omap id (kw_defaults a1)) = map dump (omap id (kw_defaults a2)).
Proof. apply tagged_texts_inj. Qed.

(** The signature determines what it was built from. *)
Lemma signature_inj (a1 a2 : arguments) :
  well_named a1 = true → well_named a2 = true →
  _get_function_signature a1 = _get_function_signature a2 →
  view_of a1 = view_of a2.
Proof.
  intros W1 W2. rewrite !signature_tokens. intros H.
  apply String.app_inj in H.
  pose proof (tokens_clean a1 W1) as C1. pose proof (tokens_clean a2 W2) as C2.
  apply (prefix_unique ")") in H as [Ht Hd]; [| | | done | done].
  - injection Hd as Hd. apply defaults_texts_inj in Hd as [Hd Hk].
    apply (join_inj ",") in Ht.
    + apply tokens_inj in Ht as (Hn & Hv & Hko & Hkw); [|done..].
      unfold view_of. by rewrite Hn, Hv, Hko, Hkw, Hd, Hk.
    + revert C1. apply forallb_impl. unfold clean_token.
      by intros x [? _]%andb_prop.
    + revert C2. apply forallb_impl. unfold clean_token.
      by intros x [? _]%andb_prop.
  - apply contains_join; [done|]. revert C1. apply forallb_impl.
    unfold clean_token. by intros x [_ ?]%andb_prop.
  - apply contains_join; [done|]. revert C2. apply forallb_impl.
    unfold clean_token. by intros x [_ ?]%andb_prop.
Qed.

(** ** What the signature depends on *)

Lemma star_name_view (prefix : string) (o : option arg) :
  star_name prefix o =
  match option_map arg_name o with Some n => prefix +:+ n | None => "" end.
Proof. by destruct o. Qed.

Lemma signature_of_view (a1 a2 : arguments) :
  view_of a1 = view_of a2 →
  _get_function_signature a1 = _get_function_signature a2.
Proof.
  unfold view_of. intros [= Hn Hv Hk Hkw Hd Hkd].
  unfold _get_function_signature.
  by rewrite !star_name_view, Hn, Hv, Hk, Hkw, Hd, Hkd.
Qed.

Lemma omap_erase (l : list (option expr)) :
  map dump (omap id (map (option_map erase_expr) l)) = map dump (omap id l).
Proof.
  induction l as [|[e|] l IH]; [done | | done].
  cbn [map option_map omap list_omap id]. by rewrite <- IH.
Qed.

Lemma view_of_erase (a : arguments) : view_of (erase_arguments a) = view_of a.
Proof.
  unfold view_of, erase_arguments. cbn [args vararg kwonlyargs kwarg defaults kw_defaults].
  rewrite !map_map, omap_erase. cbn [erase_arg erase_expr arg_name dump].
  by destruct (vararg a), (kwarg a).
Qed.

Lemma view_of_unannotated (a : arguments) : view_of (unannotated a) = view_of a.
Proof.
  unfold view_of, unannotated. cbn [args vararg kwonlyargs kwarg defaults kw_defaults].
  rewrite !map_map. cbn [unannotated_arg arg_name].
  by destruct (vararg a), (kwarg a).
Qed.

Lemma checksum_of_signature (a1 a2 : arguments) (l1 l2 : loc) (name : string)
    (body1 body2 : list node) (decs : list expr) (doc : option string) :
  _get_function_signature a1 = _get_function_signature a2 →
  _calculate_node_checksum (FunctionDef l1 name a1 body1 decs doc) =
  _calculate_node_checksum (FunctionDef l2 name a2 body2 decs doc).
Proof.
  intros H. unfold _calculate_node_checksum, checksum_content. by rewrite H.
Qed.

(** C2, as the code has it.  The signature string, and with it the
    checksum of the function, is the same for two parameter lists that
    differ only in the layout of the source, and also for two lists that
    differ only in their type annotations: the annotations are not part
    of it.  It is the same for two lists exactly when they agree on what
    the code reads: the positional names in order, the name of [*args],
    the keyword-only names in order, the name of [**kwargs], the dumps of
    the positional defaults and the dumps of the keyword-only defaults
    that are present.  So it differs whenever one of these differs. *)
Theorem C2_signature_canonical (a1 a2 : arguments) :
  (erase_arguments a1 = erase_arguments a2 →
     _get_function_signature a1 = _get_function_signature a2
     ∧ ∀ l1 l2 name body1 body2 decs doc,
         _calculate_node_checksum (FunctionDef l1 name a1 body1 decs doc) =
         _calculate_node_checksum (FunctionDef l2 name a2 body2 decs doc))
  ∧ (unannotated a1 = unannotated a2 →
     _get_function_signature a1 = _get_function_signature a2
     ∧ ∀ l1 l2 name body1 body2 decs doc,
         _calculate_node_checksum (FunctionDef l1 name a1 body1 decs doc) =
         _calculate_node_checksum (FunctionDef l2 name a2 body2 decs doc))
  ∧ (well_named a1 = true → well_named a2 = true →
     (_get_function_signature a1 = _get_function_signature a2 ↔
      view_of a1 = view_of a2)).
Proof.
  split_and!.
  - intros H.
    assert (_get_function_signature a1 = _get_function_signature a2) as Hs.
    { apply signature_of_view. by rewrite <- (view_of_erase a1), H, view_of_erase. }
    split; [done|]. intros. by apply checksum_of_signature.
  - intros H.
    assert (_get_function_signature a1 = _get_function_signature a2) as Hs.
    { apply signature_of_view.
      by rewrite <- (view_of_unannotated a1), H, view_of_unannotated. }
    split; [done|]. intros. by apply checksum_of_signature.
  - intros W1 W2. split; [by apply signature_inj | apply signature_of_view].
Qed.

(** C2, as the specification states it, fails: [def f(x: int)] and [def f(x: str)]
    differ in the type annotation of [x] and in nothing else, and have the
    same signature string and the same checksum. *)
Lemma C2_annotation_counterexample :
  let int_ := Expr (Loc 1 9 1 12) "Name(id='int', ctx=Load())" "int" in
  let str_ := Expr (Loc 1 9 1 12) "Name(id='str', ctx=Load())" "str" in
  let a1 := one_parameter (Loc 1 6 1 12) int_ in
  let a2 := one_parameter (Loc 1 6 1 12) str_ in
  (annotation <$> args a1) ≠ (annotation <$> args a2)
  ∧ unannotated a1 = unannotated a2
  ∧ _get_function_signature a1 = "(x)"
  ∧ _get_function_signature a2 = "(x)"
  ∧ _calculate_node_checksum f_of_int = _calculate_node_checksum f_of_str.
Proof.
  intros int_ str_ a1 a2. split_and!.
  - discriminate.
  - reflexivity.
  - vm_compute. reflexivity.
  - vm_compute. reflexivity.
  - apply checksum_of_signature. vm_compute. reflexivity.
Qed.

(** [def f(a, *, b)] and [def f(a, b)]: both lists are well named, their
    signatures differ and so do the views. *)
Lemma C2_signature_canonical_witness :
  well_named (Arguments [] [Arg nowhere "a" None] None [Arg nowhere "b" None] [None] None []) = true
  ∧ well_named (Arguments [] [Arg nowhere "a" None; Arg nowhere "b" None] None [] [] None []) = true
  ∧ (_get_function_signature
       (Arguments [] [Arg nowhere "a" None] None [Arg nowhere "b" None] [None] None []) =
     _get_function_signature
       (Arguments [] [Arg nowhere "a" None; Arg nowhere "b" None] None [] [] None []) ↔
     view_of (Arguments [] [Arg nowhere "a" None] None [Arg nowhere "b" None] [None] None []) =
     view_of (Arguments [] [Arg nowhere "a" None; Arg nowhere "b" None] None [] [] None [])).
Proof.
  split; [reflexivity|]. split; [reflexivity|].
  apply (proj2 (proj2 (C2_signature_canonical
    (Arguments [] [Arg nowhere "a" None] None [Arg nowhere "b" None] [None] None [])
    (Arguments [] [Arg nowhere "a" None; Arg nowhere "b" None] None [] [] None [])))).
  - reflexivity.
  - reflexivity.
Defined.

(** [def f(a, *, b)] and [def f(a, b)] differ in the kind of [b] only, and
    their signature strings differ. *)
Example signature_tells_kinds :
  _get_function_signature
    (Arguments [] [Arg nowhere "a" None] None [Arg nowhere "b" None] [None] None []) = "(a, *, b)"
  ∧ _get_function_signature
    (Arguments [] [Arg nowhere "a" None; Arg nowhere "b" None] None [] [] None []) = "(a, b)".
Proof. split; vm_compute; reflexivity. Qed.

(** * Further properties of the generator *)

(** ** The first pass reaches every definition *)

Lemma nodes_of_children (n : node) :
  nodes_of n = n :: flat_map nodes_of (children_of n).
Proof. by destruct n. Qed.

Lemma walk_queue_all_nodes (fuel : nat) (todo : list node) :
  forest_size todo ≤ fuel → walk_queue fuel todo ≡ₚ flat_map nodes_of todo.
Proof.
  revert todo. induction fuel as [|fuel IH]; intros todo Hle.
  - destruct todo as [|n rest]; [done|]. rewrite forest_size_cons in Hle. lia.
  - destruct todo as [|n rest]; [done|].
    rewrite forest_size_cons in Hle. cbn [walk_queue flat_map].
    rewrite nodes_of_children. cbn [app]. apply Permutation_skip.
    rewrite IH by lia. rewrite flat_map_app. apply Permutation_app_comm.
Qed.

(** [ast.walk] yields every node of the tree once. *)
Lemma walk_all_nodes (tree : module) : walk tree ≡ₚ all_nodes tree.
Proof. by apply walk_queue_all_nodes. Qed.

Lemma last_filter_is_Some {A} (P : A → Prop) `{∀ x, Decision (P x)} (l : list A) :
  is_Some (last (filter P l)) ↔ ∃ x, x ∈ l ∧ P x.
Proof.
  split.
  - intros [x Hx]. apply last_Some_elem_of in Hx.
    apply list_elem_of_filter in Hx as [? ?]. eauto.
  - intros (x & Hin & HP).
    assert (x ∈ filter P l) as Hf by (by apply list_elem_of_filter).
    destruct (filter P l) as [|y l'] using rev_ind.
    + by apply elem_of_nil in Hf.
    + rewrite last_snoc. eauto.
Qed.

(** X1.  The record has a key exactly for the keys of the definitions of
    the module, at whatever depth they stand: nested functions, methods
    of nested classes, definitions under an [if] or a [try]. *)
Theorem X1_record_has_every_definition (tree : module) (k : string) :
  k ∈ key_set (collect_checksums tree) ↔
  ∃ n, n ∈ all_nodes tree ∧ node_key n = Some k.
Proof.
  rewrite elem_of_key_set. unfold collect_checksums. rewrite fold_record_get.
  assert (is_Some
            match last (filter (fun n => node_key n = Some k) (walk tree)) with
            | Some n => Some (_calculate_node_checksum n)
            | None => dict_get [] k
            end ↔
          is_Some (last (filter (fun n => node_key n = Some k) (walk tree)))) as ->.
  { destruct (last _); simpl; split; intros [? ?]; eauto; done. }
  rewrite last_filter_is_Some.
  split; intros (n & Hin & Hk); exists n; split; try done.
  - by rewrite <- walk_all_nodes.
  - by rewrite walk_all_nodes.
Qed.

(** ** What the comparison looks at *)

Lemma needs_update_false_lookup (cur prev : pydict) :
  NoDup (dict_keys cur) →
  needs_update cur prev = false ↔ ∀ k, dict_get cur k = dict_get prev k.
Proof.
  intros Hnd. rewrite <- not_true_iff_false, needs_update_true by done. split.
  - intros Hno k.
    assert (key_set cur = key_set prev) as Hk.
    { destruct (decide (key_set cur = key_set prev)); [done | tauto]. }
    destruct (dict_get cur k) as [v|] eqn:Hc, (dict_get prev k) as [v'|] eqn:Hp.
    + destruct (decide (v = v')) as [->|Hne]; [done|].
      exfalso. apply Hno. right. by exists k, v, v'.
    + exfalso. assert (k ∈ key_set prev) as Hin.
      { rewrite <- Hk. apply elem_of_key_set. eauto. }
      apply elem_of_key_set in Hin as [? ?]. congruence.
    + exfalso. assert (k ∈ key_set cur) as Hin.
      { rewrite Hk. apply elem_of_key_set. eauto. }
      apply elem_of_key_set in Hin as [? ?]. congruence.
    + done.
  - intros Hsame [Hk | (k & v & v' & Hc & Hp & Hne)].
    + apply Hk. apply set_eq. intros k. by rewrite !elem_of_key_set, Hsame.
    + rewrite Hsame in Hc. congruence.
Qed.

(** X2.  The comparison finds nothing to update exactly when the record
    of this run and the persisted record give the same checksum, or none,
    for every key: the order of the entries in the persisted file does not
    matter. *)
Theorem X2_no_update_iff_same_lookups (w : world) (tree : module) :
  needs_update (collect_checksums tree) (_load_checksums w) = false ↔
  ∀ k, dict_get (collect_checksums tree) k = dict_get (_load_checksums w) k.
Proof. apply needs_update_false_lookup, collect_checksums_NoDup. Qed.





(** ** When the second pass returns *)





(** ** The entries of the document and the links to them *)

Lemma second_pass_split (self : HelpFileGen) (pre rest : list node)
    (cn : option string) (hc0 hc : list string) :
  second_pass self cn hc0 (pre ++ rest) = Returned hc →
  ∃ hc1, second_pass self cn hc0 pre = Returned hc1
         ∧ second_pass self (class_name_after cn pre) hc1 rest = Returned hc.
Proof.
  revert cn hc0. induction pre as [|n pre IH]; intros cn hc0; simpl; [eauto|].
  destruct n as [l name a b d doc | l name bs b d doc | l dumped ch]; [|apply IH..].
  destruct (excluded self name); [apply IH|].
  destruct (function_entry self cn name a doc); [apply IH | done].
Qed.

Lemma second_pass_keeps (self : HelpFileGen) (body : list node)
    (cn : option string) (hc0 hc : list string) (x : string) :
  second_pass self cn hc0 body = Returned hc → x ∈ hc0 → x ∈ hc.
Proof.
  intros (ext & -> & _)%second_pass_extends Hx. apply elem_of_app. by left.
Qed.

Lemma class_name_after_last (pre : list node) (cn : option string) :
  class_name_after cn pre =
  match last (toplevel_classes pre) with Some c => Some c | None => cn end.
Proof.
  revert cn. induction pre as [|n pre IH]; intros cn; [done|].
  unfold class_name_after, toplevel_classes in *. cbn [fold_left omap list_omap].
  destruct n as [l name a b d doc | l name bs b d doc | l dumped ch]; [apply IH | | apply IH].
  rewrite IH. rewrite last_cons. by destruct (last _).
Qed.

Lemma regroup (h a b c d e u r : string) :
  h +:+ a +:+ b +:+ c +:+ d +:+ e +:+ u +:+ r =
  (h +:+ a +:+ b +:+ c +:+ d +:+ e) +:+ u +:+ r.
Proof. by rewrite !append_assoc. Qed.

Lemma function_entry_bound (self : HelpFileGen) (c name : string)
    (a : arguments) (doc : option string) :
  ∃ before after,
    function_entry self (Some c) name a doc =
    Returned (before +:+ generate_usage_code c name (_get_argument_details a) +:+ after).
Proof. unfold function_entry. eexists _, _. f_equal. apply regroup. Qed.

(** X5.  The usage example of a standalone function is written for the
    class that stands last before it in the module, whatever that class
    is: when the second pass returns, the entry of the function is in the
    document and holds the usage built with that class name as
    receiver. *)
Theorem X5_function_receiver_is_last_class (self : HelpFileGen) (tree pre post : module)
    (l : loc) (name : string) (a : arguments) (body : list node)
    (decs : list expr) (doc : option string) (hc : list string) :
  tree = pre ++ FunctionDef l name a body decs doc :: post →
  excluded self name = false →
  second_pass self None [] tree = Returned hc →
  ∃ c entry,
    last (toplevel_classes pre) = Some c
    ∧ function_entry self (Some c) name a doc = Returned entry
    ∧ entry ∈ hc
    ∧ ∃ before after,
        entry = before +:+ generate_usage_code c name (_get_argument_details a) +:+ after.
Proof.
  intros -> Hex Hsp.
  apply second_pass_split in Hsp as (hc1 & _ & Hsp).
  rewrite class_name_after_last in Hsp. cbn [second_pass] in Hsp. rewrite Hex in Hsp.
  destruct (last (toplevel_classes pre)) as [c|]; [|discriminate Hsp].
  destruct (function_entry_bound self c name a doc) as (before & after & He).
  rewrite He in Hsp.
  exists c, (before +:+ generate_usage_code c name (_get_argument_details a) +:+ after).
  split_and!; [reflexivity | exact He | | by exists before, after].
  eapply second_pass_keeps; [exact Hsp|]. apply elem_of_app. right. left.
Qed.

(** [def f(): pass] after [class A: pass]: the usage of [f] is written
    for [A]. *)
Lemma X5_function_receiver_is_last_class_witness :
  ∃ c entry,
    last (toplevel_classes lone_class) = Some c
    ∧ function_entry (generator "m" []) (Some c) "f" no_arguments None = Returned entry
    ∧ entry ∈ rendered_entries (generator "m" []) class_then_function
    ∧ ∃ before after,
        entry = before +:+ generate_usage_code c "f" (_get_argument_details no_arguments)
                +:+ after.
Proof.
  refine (X5_function_receiver_is_last_class (generator "m" []) class_then_function
            lone_class [] (Loc 1 0 1 13) "f" no_arguments
            [OtherNode (Loc 1 9 1 13) "Pass()" []] [] None
            (rendered_entries (generator "m" []) class_then_function) _ _ _).
  - reflexivity.
  - reflexivity.
  - vm_compute. reflexivity.
Defined.

Lemma function_entry_begins (self : HelpFileGen) (c name : string)
    (a : arguments) (doc : option string) :
  ∃ entry, function_entry self (Some c) name a doc = Returned entry
           ∧ begins_with (anchor_tag (func_anchor name)) entry.
Proof.
  unfold function_entry. eexists. split; [reflexivity|].
  eexists. apply append_assoc.
Qed.

Lemma method_entry_begins (self : HelpFileGen) (c name : string)
    (a : arguments) (doc : option string) :
  begins_with (anchor_tag (method_anchor c name)) (method_entry self c name a doc).
Proof. unfold method_entry. by eexists. Qed.

Lemma method_entries_elem (self : HelpFileGen) (c : string) (cbody : list node)
    (l : loc) (m : string) (a : arguments) (b : list node) (d : list expr)
    (doc : option string) :
  FunctionDef l m a b d doc ∈ cbody → excluded self m = false →
  method_entry self c m a doc ∈ method_entries self c cbody
  ∧ link m (method_anchor c m) ∈ method_links self c cbody.
Proof.
  intros Hin Hex. unfold method_entries, method_links.
  split; apply list_elem_of_omap; exists (FunctionDef l m a b d doc);
    (split; [exact Hin|]); by rewrite Hex.
Qed.

(** X6.  When the second pass returns, every link of the document has
    its target: for every class of the top level the anchor [class-...]
    is among the entries, every function of the top level that is not
    excluded has an entry that begins with its anchor [func-...], and
    every method that is not excluded has both its quick link and an
    entry that begins with the anchor of that link. *)
Theorem X6_links_resolve (self : HelpFileGen) (tree : module) (hc : list string) :
  second_pass self None [] tree = Returned hc →
  (∀ name, name ∈ toplevel_classes tree → anchor_tag (class_anchor name) ∈ hc)
  ∧ (∀ name, name ∈ toplevel_functions tree → excluded self name = false →
       ∃ entry, entry ∈ hc ∧ begins_with (anchor_tag (func_anchor name)) entry)
  ∧ (∀ l c bases cbody decs doc l' m a b d doc',
       ClassDef l c bases cbody decs doc ∈ tree →
       FunctionDef l' m a b d doc' ∈ cbody → excluded self m = false →
       link m (method_anchor c m) ∈ method_links self c cbody
       ∧ ∃ entry, entry ∈ hc ∧ begins_with (anchor_tag (method_anchor c m)) entry).
Proof.
  intros Hsp. split_and!.
  - intros name Hin. apply list_elem_of_omap in Hin as (n & Hn & Hname).
    destruct n as [| l name' bs cb d doc |]; try discriminate Hname.
    injection Hname as ->.
    apply list_elem_of_split in Hn as (pre & post & ->).
    apply second_pass_split in Hsp as (hc1 & _ & Hsp). cbn [second_pass] in Hsp.
    eapply second_pass_keeps; [exact Hsp|].
    apply elem_of_app. right. unfold class_content. left.
  - intros name Hin Hex. apply list_elem_of_omap in Hin as (n & Hn & Hname).
    destruct n as [l name' a b d doc | |]; try discriminate Hname.
    injection Hname as ->.
    apply list_elem_of_split in Hn as (pre & post & ->).
    apply second_pass_split in Hsp as (hc1 & _ & Hsp). cbn [second_pass] in Hsp.
    rewrite Hex in Hsp.
    destruct (class_name_after None pre) as [c|]; [|discriminate Hsp].
    destruct (function_entry_begins self c name a doc) as (entry & He & Hb).
    rewrite He in Hsp. exists entry. split; [|exact Hb].
    eapply second_pass_keeps; [exact Hsp|]. apply elem_of_app. right. left.
  - intros l c bases cbody decs doc l' m a b d doc' Hc Hm Hex.
    destruct (method_entries_elem self c cbody l' m a b d doc' Hm Hex) as [He Hl].
    split; [exact Hl|].
    exists (method_entry self c m a doc'). split; [|apply method_entry_begins].
    apply list_elem_of_split in Hc as (pre & post & ->).
    apply second_pass_split in Hsp as (hc1 & _ & Hsp). cbn [second_pass] in Hsp.
    eapply second_pass_keeps; [exact Hsp|].
    apply elem_of_app. right. unfold class_content.
    apply elem_of_app. right. apply elem_of_app. right. exact He.
Qed.

(** The [Greeter] module. *)
Lemma X6_links_resolve_witness :
  (∀ name, name ∈ toplevel_classes greeter →
     anchor_tag (class_anchor name) ∈ rendered_entries (generator "greeter" []) greeter)
  ∧ (∀ name, name ∈ toplevel_functions greeter →
       excluded (generator "greeter" []) name = false →
       ∃ entry, entry ∈ rendered_entries (generator "greeter" []) greeter
                ∧ begins_with (anchor_tag (func_anchor name)) entry)
  ∧ (∀ l c bases cbody decs doc l' m a b d doc',
       ClassDef l c bases cbody decs doc ∈ greeter →
       FunctionDef l' m a b d doc' ∈ cbody →
       excluded (generator "greeter" []) m = false →
       link m (method_anchor c m) ∈ method_links (generator "greeter" []) c cbody
       ∧ ∃ entry, entry ∈ rendered_entries (generator "greeter" []) greeter
                  ∧ begins_with (anchor_tag (method_anchor c m)) entry).
Proof.
  apply (X6_links_resolve (generator "greeter" []) greeter
           (rendered_entries (generator "greeter" []) greeter)).
  vm_compute. reflexivity.
Defined.

(** ** What the checksum of a class reads *)

Lemma concat_empty_cons (x : string) (xs : list string) :
  String.concat "" (x :: xs) = x +:+ String.concat "" xs.
Proof. destruct xs; [by rewrite append_empty_r | done]. Qed.

Lemma methods_content_summary (body : list node) :
  String.concat "" (map method_content body) =
  String.concat ""
    (map (fun s : string * string * string =>
            "|" +:+ s.1.1 +:+ ":" +:+ s.1.2 +:+ ":" +:+ s.2)
         (omap method_summary body)).
Proof.
  induction body as [|n body IH]; [reflexivity|].
  cbn [map omap list_omap]. rewrite concat_empty_cons, IH.
  destruct n as [l name a b d doc | |]; cbn [method_summary method_content].
  - cbn [map]. by rewrite concat_empty_cons.
  - reflexivity.
  - reflexivity.
Qed.

(** X7.  The checksum of a class reads its name, its docstring, the dumps
    of its bases and decorators and, of its direct function members, the
    name, the signature string and the docstring.  Two classes that agree
    on these have the same checksum: a change in the body of a method, in
    a class attribute or in anything inside a nested class leaves the
    checksum of the class as it was. *)
Theorem X7_class_checksum_reads (l1 l2 : loc) (name : string)
    (bases1 bases2 : list expr) (body1 body2 : list node)
    (decs1 decs2 : list expr) (doc1 doc2 : option string) :
  map dump bases1 = map dump bases2 →
  map dump decs1 = map dump decs2 →
  or_empty doc1 = or_empty doc2 →
  omap method_summary body1 = omap method_summary body2 →
  _calculate_node_checksum (ClassDef l1 name bases1 body1 decs1 doc1) =
  _calculate_node_checksum (ClassDef l2 name bases2 body2 decs2 doc2).
Proof.
  intros Hb Hd Hdoc Hm. unfold _calculate_node_checksum, checksum_content.
  by rewrite !methods_content_summary, Hb, Hd, Hdoc, Hm.
Qed.

(** The class [A] before and after an edit that touches no signature and
    no docstring. *)
Lemma X7_class_checksum_reads_witness :
  class_a_before ≠ class_a_after
  ∧ _calculate_node_checksum class_a_before = _calculate_node_checksum class_a_after.
Proof.
  split; [discriminate|].
  apply X7_class_checksum_reads; vm_compute; reflexivity.
Defined.

(** ** What a run writes to the help file *)

(** X8.  A run of [generate_help_file] either leaves the help file as it
    was or replaces its content by the document rendered from the module
    of this run, and that document is not empty: an empty document is
    never written, and neither is anything but a full rendering. *)
Theorem X8_help_file_holds_render (self : HelpFileGen) (w : world) (tree : module) :
  let w' := (generate_help_file self w tree).2 in
  output_store w' = output_store w
  ∨ ∃ document, output_store w' = Some document
                ∧ truthy document = true
                ∧ render self tree = Returned document.
Proof.
  destruct w as [cs os so].
  unfold generate_help_file, _generate_help_content, output_exists, _save_checksums,
    print, _update_help_file_incrementally.
  cbn [checksum_store output_store stdout].
  destruct (overwrite self || negb match os with Some _ => true | None => false end);
    [|by left].
  destruct (negb (needs_update (collect_checksums tree) (_load_checksums (World cs os so)))
            && match os with Some _ => true | None => false end).
  - left. reflexivity.
  - destruct (render self tree) as [doc|e]; [|by left].
    destruct (truthy doc) eqn:Ht; [|by left].
    right. exists doc. split_and!; reflexivity || assumption.
Qed.

(** ** From the argument lines to the usage example *)

Lemma split1_append (c : ascii) (s r : string) :
  Py.contains c s = false → Py.split1 c (s +:+ String c r) = (s, Some r).
Proof.
  induction s as [|d s IH]; cbn [append Py.contains Py.split1].
  - intros _. by rewrite Ascii.eqb_refl.
  - destruct (Ascii.eqb c d); [discriminate|]. intros H. by rewrite IH.
Qed.

Lemma ident_char_not_space (c : ascii) : is_ident_char c = true → Py.isspace c = false.
Proof. destruct c as [[] [] [] [] [] [] [] []]; vm_compute; congruence. Qed.

Lemma rstrip_no_space (s : string) :
  all_chars (fun c => negb (Py.isspace c)) s = true → Py.rstrip s = s.
Proof.
  induction s as [|c s IH]; [reflexivity|]. cbn [all_chars Py.rstrip].
  intros [Hc Hs]%andb_prop. rewrite IH by exact Hs.
  apply negb_true_iff in Hc. rewrite Hc. by destruct s.
Qed.

Lemma strip_no_space (s : string) :
  all_chars (fun c => negb (Py.isspace c)) s = true → Py.strip s = s.
Proof.
  intros H. unfold Py.strip.
  assert (Py.lstrip s = s) as ->.
  { destruct s as [|c s]; [reflexivity|]. cbn [all_chars] in H.
    apply andb_prop in H as [Hc _]. apply negb_true_iff in Hc.
    cbn [Py.lstrip]. by rewrite Hc. }
  by apply rstrip_no_space.
Qed.

Lemma all_chars_impl (p q : ascii → bool) (s : string) :
  (∀ c, p c = true → q c = true) → all_chars p s = true → all_chars q s = true.
Proof.
  intros Hpq. induction s as [|c s IH]; [reflexivity|]. cbn [all_chars].
  intros [Hc Hs]%andb_prop. by rewrite Hpq, IH.
Qed.

Lemma strip_identifier (s : string) : is_identifier s = true → Py.strip s = s.
Proof.
  intros H. apply strip_no_space. destruct s as [|c s]; [reflexivity|].
  unfold is_identifier in H. apply andb_prop in H as [_ H].
  revert H. apply all_chars_impl. intros d Hd.
  by rewrite ident_char_not_space.
Qed.

(** X9.  The usage example reads back the argument lines that
    [_get_argument_details] writes: for a parameter whose name is an
    identifier other than [self] and whose type text has no [=], the line
    without default gives the bare name, and the line with the default [d]
    gives [name=d] with [d] stripped of the white space around it. *)
Theorem X9_usage_argument_of_detail (name type_str : string) :
  is_identifier name = true → name ≠ "self" →
  Py.contains "=" type_str = false →
  clean_arg (_format_arg_line name type_str None) = Some name
  ∧ ∀ d, clean_arg (_format_arg_line name type_str (Some d)) =
         Some (name +:+ "=" +:+ Py.strip d).
Proof.
  intros Hid Hself Hty.
  assert (Py.contains ":" name = false) as Hcolon by (by apply identifier_contains).
  assert (String.eqb name "self" = false) as Hne by (by apply String.eqb_neq).
  split.
  - unfold clean_arg, _format_arg_line.
    change (name +:+ ": " +:+ type_str) with (name +:+ String ":" (String " " type_str)).
    rewrite split1_append by exact Hcolon.
    rewrite strip_identifier by exact Hid. rewrite Hne.
    cbn [Py.contains]. change (Ascii.eqb "=" " ") with false. cbv iota.
    by rewrite Hty.
  - intros d. unfold clean_arg, _format_arg_line.
    assert (name +:+ ": " +:+ type_str +:+ " = " +:+ d =
            name +:+ String ":" ((String " " type_str +:+ " ") +:+ String "=" (String " " d)))
      as ->.
    { f_equal. cbn [append]. f_equal. f_equal.
      rewrite (append_assoc type_str " " (String "=" (String " " d))). reflexivity. }
    rewrite split1_append by exact Hcolon.
    rewrite strip_identifier by exact Hid. rewrite Hne.
    assert (Py.contains "=" (String " " type_str +:+ " ") = false) as Hpre.
    { rewrite contains_append. cbn [Py.contains].
      change (Ascii.eqb "=" " ") with false. cbv iota. by rewrite Hty. }
    rewrite contains_append, Hpre. cbn [Py.contains orb].
    rewrite Ascii.eqb_refl. rewrite split1_append by exact Hpre.
    reflexivity.
Qed.

(** The parameter [name: str], alone and with the default ['World']. *)
Lemma X9_usage_argument_of_detail_witness :
  clean_arg (_format_arg_line "name" "str" None) = Some "name"
  ∧ ∀ d, clean_arg (_format_arg_line "name" "str" (Some d)) =
         Some ("name" +:+ "=" +:+ Py.strip d).
Proof.
  apply (X9_usage_argument_of_detail "name" "str").
  - reflexivity.
  - discriminate.
  - reflexivity.
Defined.

(** ** Which parameter gets which default *)

Lemma positional_default_spec (a : arguments) (i : nat) :
  i < length (args a) →
  positional_default a i =
  if decide (length (args a) - length (defaults a) ≤ i)
  then option_map unparse
         (defaults a !! (length (defaults a) - length (args a)
                         + (i - (length (args a) - length (defaults a)))))
  else None.
Proof.
  intros Hi. unfold positional_default.
  destruct (defaults a) as [|e ds] eqn:Hd.
  - cbn [nonempty andb length]. case_decide; [|done]. lia.
  - rewrite <- Hd. replace (nonempty (defaults a)) with true by (by rewrite Hd).
    cbn [andb].
    assert (0 < length (defaults a)) as Hpos by (rewrite Hd; simpl; lia).
    case_decide as Hle.
    + rewrite (proj2 (Z.leb_le _ _)) by lia.
      replace (Z.to_nat (Z.of_nat i - (Z.of_nat (length (args a)) - Z.of_nat (length (defaults a)))))
        with (length (defaults a) - length (args a)
              + (i - (length (args a) - length (defaults a)))) by lia.
      by destruct (defaults a !! _).
    + rewrite (proj2 (Z.leb_gt _ _)) by lia. done.
Qed.

(** X10.  The argument details are one line per positional parameter
    followed by one line per keyword-only parameter, and nothing for
    positional-only parameters, [*args] and [**kwargs].  The positional
    defaults go to the last positional parameters, in order; the
    parameters before them have no default.  A keyword-only parameter has
    the default at its own index of [kw_defaults], when there is one. *)
Theorem X10_defaults_go_to_the_last_parameters (a : arguments) :
  let n := length (args a) in
  let d := length (defaults a) in
  let k := length (kwonlyargs a) in
  _get_argument_details a =
  map (fun x => detail_line x None) (take (n - d) (args a))
  ++ zip_with (fun x e => detail_line x (Some e))
       (drop (n - d) (args a)) (drop (d - n) (defaults a))
  ++ zip_with detail_line (kwonlyargs a)
       (kw_defaults a ++ replicate (k - length (kw_defaults a)) None).
Proof.
  intros n d k. unfold _get_argument_details. rewrite app_assoc. f_equal.
  - apply list_eq. intros i. rewrite list_lookup_imap.
    destruct (args a !! i) as [x|] eqn:Hx; cbn [fmap option_fmap option_map].
    + assert (i < n) as Hi by (by apply lookup_lt_Some in Hx).
      rewrite positional_default_spec by exact Hi. fold n d.
      case_decide as Hle.
      * rewrite lookup_app_r by (rewrite length_map, length_take; lia).
        rewrite length_map, length_take.
        replace (Nat.min (n - d) (length (args a))) with (n - d) by (fold n; lia).
        rewrite lookup_zip_with, !lookup_drop.
        replace (n - d + (i - (n - d))) with i by lia. rewrite Hx.
        assert (d - n + (i - (n - d)) < d) as Hlt by lia.
        destruct (lookup_lt_is_Some_2 (defaults a) _ Hlt) as [e He]. rewrite He.
        reflexivity.
      * rewrite lookup_app_l by (rewrite length_map, length_take; fold n; lia).
        change (map ?f ?l) with (f <$> l). rewrite list_lookup_fmap.
        rewrite lookup_take_lt by lia. rewrite Hx. reflexivity.
    + assert (n ≤ i) as Hi by (by apply lookup_ge_None in Hx).
      symmetry. apply lookup_ge_None.
      rewrite length_app, length_map, length_take, length_zip_with, !length_drop.
      fold n d. lia.
  - apply list_eq. intros i. rewrite list_lookup_imap, lookup_zip_with.
    destruct (kwonlyargs a !! i) as [x|] eqn:Hx; cbn [fmap option_fmap mbind option_bind];
      [|reflexivity].
    assert (i < k) as Hi by (by apply lookup_lt_Some in Hx).
    unfold keyword_default.
    destruct (decide (i < length (kw_defaults a))) as [Hlt|Hge].
    + rewrite lookup_app_l by exact Hlt.
      destruct (lookup_lt_is_Some_2 (kw_defaults a) i Hlt) as [o Ho]. rewrite Ho.
      by destruct o.
    + rewrite lookup_app_r by lia.
      rewrite (proj2 (lookup_ge_None (kw_defaults a) i)) by lia.
      rewrite lookup_replicate_2 by lia. reflexivity.
Qed.

(** ** The help text *)

Lemma lstrip_blank (s : string) :
  all_chars Py.isspace s = true → Py.lstrip s = "".
Proof.
  induction s as [|c s IH]; [reflexivity|]. cbn [all_chars Py.lstrip].
  intros [Hc Hs]%andb_prop. rewrite Hc. by apply IH.
Qed.

Lemma lstrip_not_blank (s : string) :
  all_chars Py.isspace s = false →
  ∃ c r, Py.lstrip s = String c r ∧ Py.isspace c = false.
Proof.
  induction s as [|c s IH]; [discriminate|]. cbn [all_chars Py.lstrip].
  destruct (Py.isspace c) eqn:Hc; cbn [andb]; [apply IH|]. intros _. eauto.
Qed.

Lemma rstrip_head (c : ascii) (r : string) :
  Py.isspace c = false → truthy (Py.rstrip (String c r)) = true.
Proof. intros Hc. cbn [Py.rstrip]. rewrite Hc. by destruct (Py.rstrip r). Qed.

Lemma strip_truthy (s : string) :
  truthy (Py.strip s) = negb (all_chars Py.isspace s).
Proof.
  unfold Py.strip. destruct (all_chars Py.isspace s) eqn:Hb.
  - by rewrite lstrip_blank.
  - destruct (lstrip_not_blank s Hb) as (c & r & -> & Hc). by rewrite rstrip_head.
Qed.

(** X11.  For a docstring of ASCII characters, the [Help] block of an
    entry shows the placeholder [No help provided.] when the docstring is
    empty or all white space, as it does when there is no docstring; in
    every other case it shows the docstring stripped of the white space
    around it, which is then not empty. *)
Theorem X11_help_text_or_placeholder (h s : string) :
  ascii_only s = true →
  let placeholder :=
    Py.LF +:+ h +:+ " Help:" +:+ Py.LF +:+ "> No help provided." +:+ Py.LF in
  help_block h None = placeholder
  ∧ if all_chars Py.isspace s then help_block h (Some s) = placeholder
    else help_block h (Some s) =
         Py.LF +:+ h +:+ " Help:" +:+ Py.LF +:+ "> " +:+ Py.strip s +:+ Py.LF
         ∧ truthy (Py.strip s) = true.
Proof.
  intros _ placeholder. split; [reflexivity|].
  unfold help_block, _extract_help_from_docstring.
  pose proof (strip_truthy s) as Ht.
  destruct (all_chars Py.isspace s) eqn:Hb; cbn [negb] in Ht.
  - destruct (truthy s); [|reflexivity]. by rewrite Ht.
  - assert (truthy s = true) as -> by (by destruct s).
    rewrite Ht. by split.
Qed.

(** The docstring [Say hello.] followed by two spaces. *)
Lemma X11_help_text_or_placeholder_witness :
  help_block "###" None =
    Py.LF +:+ "###" +:+ " Help:" +:+ Py.LF +:+ "> No help provided." +:+ Py.LF
  ∧ help_block "###" (Some "Say hello.  ") =
    Py.LF +:+ "###" +:+ " Help:" +:+ Py.LF +:+ "> " +:+ Py.strip "Say hello.  " +:+ Py.LF
  ∧ truthy (Py.strip "Say hello.  ") = true.
Proof.
  exact (X11_help_text_or_placeholder "###" "Say hello.  " eq_refl).
Defined.

(** ** The names of the files *)

Lemma prefix_head (c d : ascii) (old s : string) :
  c ≠ d → String.prefix (String c old) (String d s) = false.
Proof. intros H. cbn [String.prefix]. by destruct (ascii_dec c d). Qed.

Lemma replace_absent (c : ascii) (old new s : string) :
  Py.contains c s = false → str_replace (String c old) new s = s.
Proof.
  unfold str_replace. induction s as [|d s IH]; [reflexivity|].
  cbn [Py.contains]. destruct (Ascii.eqb_spec c d) as [->|Hne]; [discriminate|].
  intros Hs. cbn [replace_go]. rewrite prefix_head by exact Hne.
  by rewrite IH.
Qed.

Lemma replace_dot_py (x y : string) :
  Py.contains "." x = false → Py.contains "." y = false →
  str_replace ".py" "" (x +:+ ".py" +:+ y) = x +:+ y.
Proof.
  intros Hx Hy. unfold str_replace.
  assert (replace_go ".py" "" 0 (".py" +:+ y) = y) as Hbase.
  { cbn. assert (String.prefix "" y = true) as -> by (by destruct y).
    apply (replace_absent "." "py" "" y Hy). }
  remember (".py" +:+ y) as z eqn:Hz. clear Hz.
  induction x as [|d x IH]; [exact Hbase|].
  cbn [Py.contains] in Hx. destruct (Ascii.eqb_spec "." d) as [->|Hne]; [discriminate|].
  cbn [append replace_go]. rewrite prefix_head by exact Hne.
  by rewrite IH.
Qed.

(** X12.  [__init__] removes every [.py] of the module path, not only the
    extension at its end, before it appends the name of the output file:
    for a path with one [.py], no other dot and no space, the help file is
    named by what stands before the [.py] followed by what stands after
    it.  With nothing after it, [pkg/mod.py] gives [pkg/mod-help.md]. *)
Theorem X12_output_file_name (x y output_file : string) :
  Py.contains "." x = false → Py.contains "." y = false →
  Py.contains " " x = false → Py.contains " " y = false →
  output_file_name (x +:+ ".py" +:+ y) output_file = x +:+ y +:+ "-" +:+ output_file.
Proof.
  intros Hx Hy Sx Sy. unfold output_file_name.
  rewrite replace_dot_py by assumption.
  rewrite replace_absent by (by rewrite contains_append, Sx, Sy).
  by rewrite append_assoc.
Qed.

Lemma basename_no_slash (p : string) : Py.contains "/" (basename p) = false.
Proof.
  induction p as [|c p IH]; [reflexivity|]. cbn [basename].
  destruct (Py.contains "/" (String c p)) eqn:H; [exact IH | exact H].
Qed.

Lemma basename_after_slash (dir name : string) :
  Py.contains "/" name = false → basename (dir +:+ "/" +:+ name) = name.
Proof.
  intros Hn.
  assert (basename ("/" +:+ name) = name) as Hbase.
  { cbn. destruct name as [|d name]; [reflexivity|]. cbn [basename]. by rewrite Hn. }
  assert (Py.contains "/" ("/" +:+ name) = true) as Hz by reflexivity.
  remember ("/" +:+ name) as z eqn:E. clear E.
  induction dir as [|c dir IH]; [exact Hbase|].
  cbn [append basename]. rewrite IH.
  assert (Py.contains "/" (String c (dir +:+ z)) = true) as ->; [|reflexivity].
  cbn [Py.contains]. destruct (Ascii.eqb "/" c); [reflexivity|].
  rewrite contains_append, Hz. apply orb_true_r.
Qed.

Lemma basename_plain (name : string) :
  Py.contains "/" name = false → basename name = name.
Proof. intros H. destruct name; [reflexivity|]. cbn [basename]. by rewrite H. Qed.

Lemma join_jsondata (b : string) :
  Py.contains "/" b = false →
  path_join ".jsondata" (b +:+ ".checksums.json") = ".jsondata/" +:+ b +:+ ".checksums.json".
Proof.
  intros H. unfold path_join. destruct b as [|c b]; [reflexivity|].
  cbn [Py.contains] in H. destruct (Ascii.eqb_spec "/" c) as [->|Hne]; [discriminate|].
  cbn [append].
  destruct c as [[] [] [] [] [] [] [] []]; try reflexivity. congruence.
Qed.

(** X13.  The checksum file is always a file directly inside [.jsondata]
    named after the last component of the module path.  So two modules
    with the same file name in different directories use the same checksum
    file. *)
Theorem X13_checksum_file_name (module_path : string) :
  checksum_file_name module_path =
    ".jsondata/" +:+ basename module_path +:+ ".checksums.json"
  ∧ Py.contains "/" (basename module_path +:+ ".checksums.json") = false
  ∧ ∀ dir name, Py.contains "/" name = false →
      checksum_file_name (dir +:+ "/" +:+ name) = checksum_file_name name.
Proof.
  assert (∀ p, checksum_file_name p = ".jsondata/" +:+ basename p +:+ ".checksums.json") as H.
  { intros p. unfold checksum_file_name. apply join_jsondata, basename_no_slash. }
  split_and!.
  - apply H.
  - rewrite contains_append, basename_no_slash. reflexivity.
  - intros dir name Hn. rewrite !H, basename_after_slash, basename_plain by exact Hn.
    reflexivity.
Qed.

(** The path [pkg/mod.py]. *)
Lemma X12_output_file_name_witness :
  output_file_name ("pkg/mod" +:+ ".py" +:+ "") "help.md" =
  "pkg/mod" +:+ "" +:+ "-" +:+ "help.md".
Proof. apply X12_output_file_name; reflexivity. Defined.

(** ** Loading the exclusion list *)

(** X14.  [_load_exclusion_list] leaves the directory and the exclusion
    file in place, the file holding the list it returns.  A second load
    returns the same list and changes nothing; a file that exists is read
    and left as it is, and where the directory or the file is missing the
    list is empty. *)
Theorem X14_exclusion_list_load (j : jsondata) :
  let '(l, j') := _load_exclusion_list j in
  j' = Some (Some l)
  ∧ _load_exclusion_list j' = (l, j')
  ∧ (∀ l0, j = Some (Some l0) → l = l0 ∧ j' = j)
  ∧ (j = None ∨ j = Some None → l = []).
Proof.
  destruct j as [[l0|]|]; cbn; split_and!; try reflexivity.
  - intros l1 [= ->]. done.
  - intros [? | ?]; discriminate.
  - intros l0 [=].
  - intros l0 [=].
Qed.

(** ** What the signature does not see *)

(** X16.  The signature string, and so the checksum of the function, does
    not read the positional-only parameters, and reads of the keyword-only
    defaults only the sequence of those that are present: adding, removing
    or renaming positional-only parameters, or moving a default from one
    keyword-only parameter to another, changes neither. *)
Theorem X16_signature_misses (a : arguments) (posonly : list arg)
    (kwd : list (option expr)) :
  omap id kwd = omap id (kw_defaults a) →
  let a' := Arguments posonly (args a) (vararg a) (kwonlyargs a) kwd (kwarg a) (defaults a) in
  _get_function_signature a' = _get_function_signature a
  ∧ ∀ l l' name body body' decs doc,
      _calculate_node_checksum (FunctionDef l name a' body decs doc) =
      _calculate_node_checksum (FunctionDef l' name a body' decs doc).
Proof.
  intros Hk a'.
  assert (_get_function_signature a' = _get_function_signature a) as Hs.
  { apply signature_of_view. unfold view_of, a'.
    cbn [args vararg kwonlyargs kwarg defaults kw_defaults]. by rewrite Hk. }
  split; [exact Hs|]. intros. by apply checksum_of_signature.
Qed.

(** The default [1] moved from the keyword-only parameter [b] to [a], and
    a positional-only parameter [p] added. *)
Lemma X16_signature_misses_witness :
  _get_function_signature
    (Arguments [Arg nowhere "p" None] (args kw_second_default) (vararg kw_second_default)
       (kwonlyargs kw_second_default) (kw_defaults kw_first_default)
       (kwarg kw_second_default) (defaults kw_second_default)) =
  _get_function_signature kw_second_default
  ∧ ∀ l l' name body body' decs doc,
      _calculate_node_checksum
        (FunctionDef l name
           (Arguments [Arg nowhere "p" None] (args kw_second_default)
              (vararg kw_second_default) (kwonlyargs kw_second_default)
              (kw_defaults kw_first_default) (kwarg kw_second_default)
              (defaults kw_second_default)) body decs doc) =
      _calculate_node_checksum (FunctionDef l' name kw_second_default body' decs doc).
Proof.
  apply (X16_signature_misses kw_second_default [Arg nowhere "p" None]
           (kw_defaults kw_first_default)).
  reflexivity.
Defined.

(** ** Runs that return *)

(** X17.  When [_generate_help_content] returns, the persisted record is
    the record of this run, whether the run stopped at "no changes" or
    rendered the document, and the help file itself is not touched by this
    function. *)
Theorem X17_record_saved_when_returning (self : HelpFileGen) (w w' : world)
    (tree : module) (document : string) :
  _generate_help_content self w tree = (Returned document, w') →
  checksum_store w' = Some (collect_checksums tree)
  ∧ output_store w' = output_store w.
Proof.
  intros Hrun. split; [by eapply checksums_saved_on_return|].
  revert Hrun. unfold _generate_help_content.
  destruct (negb _ && output_exists w).
  - by intros [= _ <-].
  - destruct (render self tree); [by intros [= _ <-] | discriminate].
Qed.

(** The first run on the [Greeter] module. *)
Lemma X17_record_saved_when_returning_witness :
  checksum_store (_generate_help_content (generator "greeter" []) fresh greeter).2 =
    Some (collect_checksums greeter)
  ∧ output_store (_generate_help_content (generator "greeter" []) fresh greeter).2 =
    output_store fresh.
Proof.
  refine (X17_record_saved_when_returning (generator "greeter" []) fresh _ greeter
            match (_generate_help_content (generator "greeter" []) fresh greeter).1 with
            | Returned d => d
            | Raised _ => ""
            end _).
  vm_compute. reflexivity.
Defined.

(** X18.  When a run of [generate_help_file] returns, a second run on the
    unchanged module returns as well and leaves both the persisted record
    and the help file exactly as the first run left them; and when the
    second run compares the records, it finds nothing to update. *)
Theorem X18_second_run_changes_nothing (self : HelpFileGen) (w w1 : world) (tree : module) :
  generate_help_file self w tree = (Returned tt, w1) →
  (∃ w2, generate_help_file self w1 tree = (Returned tt, w2)
         ∧ checksum_store w2 = checksum_store w1
         ∧ output_store w2 = output_store w1)
  ∧ (overwrite self = true →
     needs_update (collect_checksums tree) (_load_checksums w1) = false).
Proof.
  pose proof (needs_update_same _ (collect_checksums_NoDup tree)) as Hsame.
  destruct w as [cs os so].
  unfold generate_help_file, _generate_help_content, _load_checksums,
    output_exists, _save_checksums, print, _update_help_file_incrementally.
  cbn [checksum_store output_store stdout].
  destruct (overwrite self), os as [o|],
    (needs_update (collect_checksums tree) (match cs with Some d => d | None => [] end)),
    (render self tree) as [d|e] eqn:Hr; cbn -[collect_checksums];
    try destruct (truthy d) eqn:Ht; intros [= <-]; cbn -[collect_checksums];
    rewrite ?Hsame, ?Hr; cbn -[collect_checksums]; rewrite ?Ht;
    (split; [eauto | intros; try discriminate; try reflexivity; try exact Hsame]).
Qed.

(** Two runs on the [Greeter] module, the first with no earlier state. *)
Lemma X18_second_run_changes_nothing_witness :
  (∃ w2, generate_help_file (generator "greeter" [])
           (generate_help_file (generator "greeter" []) fresh greeter).2 greeter =
         (Returned tt, w2)
         ∧ checksum_store w2 =
           checksum_store (generate_help_file (generator "greeter" []) fresh greeter).2
         ∧ output_store w2 =
           output_store (generate_help_file (generator "greeter" []) fresh greeter).2)
  ∧ (overwrite (generator "greeter" []) = true →
     needs_update (collect_checksums greeter)
       (_load_checksums (generate_help_file (generator "greeter" []) fresh greeter).2) = false).
Proof.
  apply (X18_second_run_changes_nothing (generator "greeter" []) fresh _ greeter).
  vm_compute. reflexivity.
Defined.

(** ** The docstring in the hashed text *)

Lemma append_cancel_r (s1 s2 t : string) : s1 +:+ t = s2 +:+ t → s1 = s2.
Proof.
  revert s2. induction s1 as [|c s1 IH]; intros [|d s2] H.
  - reflexivity.
  - apply (f_equal String.length) in H. cbn [append String.length] in H.
    rewrite append_length in H. lia.
  - apply (f_equal String.length) in H. cbn [append String.length] in H.
    rewrite append_length in H. lia.
  - cbn [append] in H. injection H as -> H. by rewrite (IH s2 H).
Qed.

(** X19.  For two functions of the same name with the same decorators and
    the same signature, the text that is hashed is the same exactly when
    the docstrings are the same, a missing docstring counting as the empty
    one: an edit of the docstring always changes the hashed text, and
    dropping an empty docstring never does. *)
Theorem X19_docstring_in_hashed_text (l l' : loc) (name : string) (a : arguments)
    (body body' : list node) (decs : list expr) (doc doc' : option string) :
  checksum_content (FunctionDef l name a body decs doc) =
  checksum_content (FunctionDef l' name a body' decs doc') ↔
  or_empty doc = or_empty doc'.
Proof.
  unfold checksum_content. split.
  - intros H. apply String.app_inj, String.app_inj, String.app_inj in H.
    by apply append_cancel_r in H.
  - by intros ->.
Qed.

(** ** The usage example, from the parameters *)








